(** * LinkedIn post generator: corpus filter, prompt builder, pre-processing

    A shallow embedding of [few_shots.py], [post_generator.py] and
    [pre_processing.py].  Python strings are sequences of Unicode code
    points; the interpreter's character database (case mapping, the
    whitespace and alphanumeric classes) and the iteration order of a
    [set] are not part of the repository and are taken as an interface,
    [PyRuntime], that fixes their behaviour on ASCII. *)

From Stdlib Require Import String Ascii ZArith NArith List Lia Bool.
From stdpp Require Import gmap list fin_maps sorting.

Local Open Scope N_scope.

(** ** Python strings *)

(** A character is its code point; a string is a list of them. *)
Abbreviation char := N (only parsing).
Abbreviation str := (list N) (only parsing).

(** An ASCII literal of the source as a sequence of code points. *)
Definition lit (x : string) : str := map N_of_ascii (list_ascii_of_string x).
Arguments lit x%_string.

Definition nl : char := 10.
Definition dq : str := [34].

Definition is_ascii (x : str) : bool := forallb (λ c, c <? 128) x.

Definition in_range (lo hi c : char) : bool := (lo <=? c) && (c <=? hi).

Definition ascii_isspace (c : char) : bool :=
  in_range 9 13 c || in_range 28 32 c.

Definition ascii_isalpha (c : char) : bool :=
  in_range 65 90 c || in_range 97 122 c.

Definition ascii_isalnum (c : char) : bool :=
  in_range 48 57 c || ascii_isalpha c.

Definition ascii_lower (c : char) : char :=
  if in_range 65 90 c then c + 32 else c.

Definition ascii_upper (c : char) : char :=
  if in_range 97 122 c then c - 32 else c.

(** [str.title] scans left to right: a character that follows a cased
    character is lower-cased, any other is title-cased. *)
Fixpoint ascii_title_from (previous_is_cased : bool) (x : str) : str :=
  match x with
  | [] => []
  | c :: x' =>
      (if previous_is_cased then ascii_lower c else ascii_upper c)
        :: ascii_title_from (ascii_isalpha c) x'
  end.

Definition ascii_title (x : str) : str := ascii_title_from false x.

(** The part of the Python runtime the code relies on. *)
Class PyRuntime := {
  isspace : char → bool;
  isalnum : char → bool;
  lower : str → str;
  title : str → str;
  set_iter : gset str → list str;
  isspace_ascii : ∀ c, c < 128 → isspace c = ascii_isspace c;
  isalnum_ascii : ∀ c, c < 128 → isalnum c = ascii_isalnum c;
  lower_ascii : ∀ x, is_ascii x = true → lower x = map ascii_lower x;
  title_ascii : ∀ x, is_ascii x = true → title x = ascii_title x;
  set_iter_perm : ∀ X, set_iter X ≡ₚ elements X;
}.

(** The white-space class of [str.isspace] over all code points. *)
Definition unicode_isspace (c : char) : bool :=
  ascii_isspace c || (c =? 133) || (c =? 160) || (c =? 5760)
  || in_range 8192 8202 c || (c =? 8232) || (c =? 8233) || (c =? 8239)
  || (c =? 8287) || (c =? 12288).

Module Py.

(** [a in b] on strings: [a] occurs in [b] as a contiguous run. *)
Fixpoint starts_with (a b : str) : bool :=
  match a, b with
  | [], _ => true
  | _ :: _, [] => false
  | c :: a', d :: b' => (c =? d) && starts_with a' b'
  end.

Fixpoint contains (a b : str) : bool :=
  starts_with a b || match b with [] => false | _ :: b' => contains a b' end.

(** [x in xs] on a list of strings. *)
Definition mem (x : str) (xs : list str) : bool := bool_decide (x ∈ xs).

Fixpoint lstrip_by (sp : char → bool) (x : str) : str :=
  match x with
  | [] => []
  | c :: x' => if sp c then lstrip_by sp x' else x
  end.

Definition rstrip_by (sp : char → bool) (x : str) : str :=
  rev (lstrip_by sp (rev x)).

Definition strip_by (sp : char → bool) (x : str) : str :=
  rstrip_by sp (lstrip_by sp x).

(** [x.strip()] *)
Definition strip `{PyRuntime} (x : str) : str := strip_by isspace x.

(** [x.strip(chars)] for a one-character argument *)
Definition strip_char (c : char) (x : str) : str := strip_by (N.eqb c) x.

(** [x.split(sep)] for a one-character separator: never empty. *)
Fixpoint split (sep : char) (x : str) : list str :=
  match x with
  | [] => [[]]
  | c :: x' =>
      if c =? sep then [] :: split sep x'
      else match split sep x' with
           | l :: ls => (c :: l) :: ls
           | [] => [[c]]
           end
  end.

(** [sep.join(xs)] *)
Fixpoint join (sep : str) (xs : list str) : str :=
  match xs with
  | [] => []
  | [l] => l
  | l :: ls => l ++ sep ++ join sep ls
  end.

(** [x.split()]: maximal runs of non-space characters. *)
Fixpoint words_from (sp : char → bool) (cur : str) (x : str) : list str :=
  match x with
  | [] => if bool_decide (cur = []) then [] else [rev cur]
  | c :: x' =>
      if sp c
      then (if bool_decide (cur = []) then [] else [rev cur]) ++ words_from sp [] x'
      else words_from sp (c :: cur) x'
  end.

Definition split_ws `{PyRuntime} (x : str) : list str := words_from isspace [] x.

(** [str(n)] for a natural number, used by the f-string [{i+1}]. *)
Definition digit (n : nat) : char := 48 + N.of_nat n.

Fixpoint str_of_nat_fuel (fuel n : nat) (acc : str) : str :=
  match fuel with
  | O => acc
  | S fuel' =>
      let acc' := digit (n mod 10) :: acc in
      if (n <? 10)%nat then acc' else str_of_nat_fuel fuel' (n / 10)%nat acc'
  end.

Definition str_of_nat (n : nat) : str := str_of_nat_fuel (S n) n [].

(** A value decoded by [json.load].  [JObj] holds the items of the
    dict, whose keys are distinct; a float behaves here as an integer
    of the same truth value. *)
#[warnings="-register-all"] Inductive json :=
  | JNull
  | JBool (b : bool)
  | JNum (n : Z)
  | JStr (s : str)
  | JList (items : list json)
  | JObj (fields : list (str * json)).

(** [bool(v)] *)
Definition truthy (v : json) : bool :=
  match v with
  | JNull => false
  | JBool b => b
  | JNum n => negb (n =? 0)%Z
  | JStr s => negb (bool_decide (s = []))
  | JList items => match items with [] => false | _ => true end
  | JObj fields => match fields with [] => false | _ => true end
  end.

(** [len(v)]; [None] when it raises [TypeError]. *)
Definition len (v : json) : option nat :=
  match v with
  | JStr s => Some (length s)
  | JList items => Some (length items)
  | JObj fields => Some (length fields)
  | _ => None
  end.

(** [d.get(key)] on the items of a dict. *)
Fixpoint dict_get (fields : list (str * json)) (key : str) : option json :=
  match fields with
  | [] => None
  | (k, v) :: rest => if bool_decide (k = key) then Some v else dict_get rest key
  end.

(** [sorted(xs)] on strings: ascending in the order of [str], which
    compares code point by code point. *)
Fixpoint str_leb (x y : str) : bool :=
  match x, y with
  | [], _ => true
  | _ :: _, [] => false
  | c :: x', d :: y' => (c <? d) || ((c =? d) && str_leb x' y')
  end.

Definition str_le (x y : str) : Prop := str_leb x y = true.

#[export] Instance str_le_dec : RelDecision str_le.
Proof. intros x y. unfold str_le. apply _. Defined.

Definition sorted (xs : list str) : list str := merge_sort str_le xs.

End Py.

(** An instance: the full white-space table, ASCII case mapping and
    alphanumerics, sets iterated in the order of [elements]. *)
#[export] Instance ascii_runtime : PyRuntime.
Proof.
  refine {| isspace := unicode_isspace;
            isalnum := ascii_isalnum;
            lower := map ascii_lower;
            title := ascii_title;
            set_iter := elements |}; try done.
  intros c Hc. unfold unicode_isspace, in_range.
  repeat match goal with
  | |- context [?a =? ?b] =>
      replace (a =? b) with false by (symmetry; apply N.eqb_neq; lia)
  | |- context [8192 <=? c] =>
      replace (8192 <=? c) with false by (symmetry; apply N.leb_gt; lia)
  end.
  simpl. by rewrite !orb_false_r.
Defined.

(** ** few_shots.py *)

Module few_shots.

(** One element of the [posts] array of the corpus file. *)
Record Post := mkPost {
  text : str;
  engagement : Z;
  line_count : Z;
  language : str;
  tags : list str;
}.

(** One row of [self.df]: the post's columns and the derived [length]. *)
Record Row := mkRow {
  post : Post;
  row_length : str;
}.

Record FewShotPosts := mkFewShotPosts {
  df : list Row;
  unique_tags : gset str;
}.

Definition categorize_length (line_count : Z) : str :=
  if (line_count <? 5)%Z then lit "Short"
  else if (5 <=? line_count)%Z && (line_count <=? 10)%Z then lit "Medium"
  else lit "Long".

(** [load_posts]: [posts] is the decoded [posts_dict["posts"]].  On an
    empty array [json_normalize] yields a frame without columns and the
    [line_count] lookup raises. *)
Definition load_posts (posts : list Post) : option FewShotPosts :=
  match posts with
  | [] => None
  | _ =>
      let rows := map (λ p, mkRow p (categorize_length (line_count p))) posts in
      let all_tags :=
        concat (map (λ r, map (λ tag, Py.strip_char 39 (Py.strip_char 34 tag))
                              (tags (post r))) rows) in
      Some (mkFewShotPosts rows (list_to_set all_tags))
  end.

(** The columns [df['tags']], [df['language']], [df['length']] and
    [df['text']] at one row. *)
Definition col_tags (r : Row) : list str := tags (post r).
Definition col_language (r : Row) : str := language (post r).
Definition col_length (r : Row) : str := row_length r.
Definition col_text (r : Row) : str := text (post r).

(** [get_filtered_posts]: three boolean columns, combined element-wise
    with [&], select the rows of the frame. *)
Definition get_filtered_posts (self : FewShotPosts) (length language tag : str)
  : list Row :=
  let has_tag := map (λ r, Py.mem tag (col_tags r)) (df self) in
  let language_eq := map (λ r, bool_decide (col_language r = language)) (df self) in
  let length_eq := map (λ r, bool_decide (col_length r = length)) (df self) in
  let mask := zip_with andb (zip_with andb has_tag language_eq) length_eq in
  map fst (List.filter snd (zip (df self) mask)).

Definition get_tags (self : FewShotPosts) : gset str := unique_tags self.

End few_shots.

(** ** post_generator.py *)

Module post_generator.

Import few_shots.

(** A Python value interpolated by an f-string: a string, or [None]. *)
Definition fmt_value (v : option str) : str :=
  match v with
  | Some x => x
  | None => lit "None"
  end.

(** [get_length_str] falls off its end, returning [None], for any other
    argument. *)
Definition get_length_str (length : str) : option str :=
  if bool_decide (length = lit "Short") then Some (lit "1 to 5 lines")
  else if bool_decide (length = lit "Medium") then Some (lit "6 to 10 lines")
  else if bool_decide (length = lit "Long") then Some (lit "11 to 15 lines")
  else None.

Definition default_tone : str := lit "storytelling".
Definition default_persona : str := lit "Hamza Bhatti".

(** The literal and interpolated parts of the f-string of [get_prompt],
    in order. *)
Definition prompt_parts (persona tag : str) (length_str : option str)
    (language : str) : list str :=
  [ [nl];
    lit "You are a professional content creator trained to write like "; persona; lit ", a popular influencer known for deep, relatable, and emotionally-driven storytelling on LinkedIn."; [nl];
    [nl];
    lit "== Objective =="; [nl];
    lit "Generate a new original LinkedIn post in the voice of "; persona; lit ", using the writing tone and rhythm consistent with the following inputs and examples. Do not output anything extra ";
    [8212]; lit " just the post text."; [nl];
    [nl];
    lit "== Inputs =="; [nl];
    lit "1) Topic: "; tag; [nl];
    lit "2) Post Length: "; fmt_value length_str; [nl];
    lit "3) Language: "; language; [nl];
    lit "   - If "; dq; lit "Urduish"; dq; lit ", write in Roman Urdu blended with English naturally."; [nl];
    lit "   - If "; dq; lit "English"; dq; lit ", keep it clean, modern, and simple."; [nl];
    [nl];
    lit "== Style Guide (Critical) =="; [nl];
    lit "- Use the **storytelling** tone. Start with a relatable hook or personal truth."; [nl];
    lit "- Write in a reflective, conversational style "; [8212]; lit " as if speaking to a friend."; [nl];
    lit "- Use **short sentences**, whitespace, and **line breaks** generously."; [nl];
    lit "- Avoid generic advice. Every sentence should **feel personal and grounded**."; [nl];
    lit "- Keep a **raw, human** voice. Emotion is more important than perfection."; [nl];
    lit "- No emojis. No hashtags."; [nl];
    lit "- You can use a line that Hamza Bhatti used sometimes "; dq; lit "Dedo Mazo Ayo"; dq; [nl];
    [nl];
    lit "== Output =="; [nl];
    lit "- The final output must **look and feel like** it was written by "; persona; lit "."; [nl];
    lit "- Don't copy or reuse the example lines. Just use their style as inspiration."; [nl];
    [nl];
    lit "== Writing Examples =="; [nl];
    lit "(Below are 1-2 real examples of "; persona; lit "'s writing style. Match this tone.)"; [nl] ].

(** The text appended for the example at index [i]. *)
Definition example_block (i : nat) (r : Row) : str :=
  [nl; nl] ++ lit "Example " ++ Py.str_of_nat (i + 1) ++ lit ":" ++ [nl; nl]
  ++ col_text r.

(** [for i, post in enumerate(examples)] with its [break] at [i == 1]. *)
Fixpoint examples_loop (i : nat) (examples : list Row) (prompt : str) : str :=
  match examples with
  | [] => prompt
  | r :: rest =>
      let prompt := prompt ++ example_block i r in
      if (i =? 1)%nat then prompt else examples_loop (S i) rest prompt
  end.

(** [few_shot] is the module-level corpus object. *)
Definition get_prompt (few_shot : FewShotPosts) (length language tag : str)
    (tone persona : str) : str :=
  let length_str := get_length_str length in
  let prompt := concat (prompt_parts persona tag length_str language) in
  let examples := get_filtered_posts few_shot length language tag in
  if (0 <? List.length examples)%nat then examples_loop 0 examples prompt
  else prompt.

(** [generate_post]: [llm] stands for the completion service, from
    the prompt to the content of its reply, [None] when the call raises. *)
Definition generate_post `{PyRuntime} (few_shot : FewShotPosts)
    (llm : str → option str) (length language tag : str) : option str :=
  let prompt := get_prompt few_shot length language tag default_tone default_persona in
  match llm prompt with
  | Some content => Some (Py.strip content)
  | None => None
  end.

End post_generator.

(** ** pre_processing.py *)

Module pre_processing.

Record LinkedInPostCleaner := mkCleaner {
  discovered_tags : gset str;
  max_tags : nat;
  tag_synonyms : gmap str str;
}.

(** [__init__] *)
Definition init : LinkedInPostCleaner := mkCleaner ∅ 15 ∅.

(** *** detect_language *)

(** The two shapes of pattern in [urdu_patterns]: a code-point class
    [[lo-hi]], and [\b(w1|w2|...)\b]. *)
Inductive pattern :=
  | CodeRange (lo hi : char)
  | WordAlt (alternatives : list str).

Definition urdu_patterns : list pattern :=
  [ CodeRange 1536 1791;
    WordAlt (map lit
      ["aur"; "hai"; "hain"; "ke"; "ki"; "ko"; "se"; "me"; "mein"; "bhi";
       "nahi"; "kya"; "kaise"; "kab"; "kahan"; "yeh"; "woh"; "main"; "ap";
       "aap"; "bhai"; "sahab"; "ji"]%string);
    WordAlt (map lit
      ["thora"; "thore"; "bht"; "bhut"; "bohot"; "krna"; "karna"; "krte";
       "karte"; "hoga"; "hogi"; "hoge"; "wala"; "wali"; "vale"]%string);
    WordAlt (map lit
      ["paisa"; "paise"; "rupay"; "rupee"; "lakh"; "crore"; "insha";
       "mashaallah"; "alhamdulillah"]%string) ].

Section regex.
Context `{PyRuntime}.

(** [\w]: alphanumeric or underscore; the ends of the text count as
    non-word. *)
Definition word_char (c : option char) : bool :=
  match c with
  | Some c => isalnum c || (c =? 95)
  | None => false
  end.

(** [\b] between two neighbouring positions. *)
Definition at_boundary (before after : option char) : bool :=
  xorb (word_char before) (word_char after).

(** [\b(...|w|...)\b] tried with alternative [w] at the start of [t],
    [before] being the character in front of [t]. *)
Definition alt_matches_at (before : option char) (t w : str) : bool :=
  at_boundary before (head t)
  && Py.starts_with w t
  && at_boundary (last (option_list before ++ w)) (head (drop (length w) t)).

Fixpoint search_words (alternatives : list str) (before : option char)
    (t : str) : bool :=
  existsb (alt_matches_at before t) alternatives
  || match t with
     | [] => false
     | c :: t' => search_words alternatives (Some c) t'
     end.

(** [re.search(pattern, t)] as a truth value. *)
Definition re_search (p : pattern) (t : str) : bool :=
  match p with
  | CodeRange lo hi => existsb (in_range lo hi) t
  | WordAlt alternatives => search_words alternatives None t
  end.

Fixpoint detect_loop (patterns : list pattern) (text_lower : str) : str :=
  match patterns with
  | [] => lit "English"
  | p :: rest =>
      if re_search p text_lower then lit "Urduish"
      else detect_loop rest text_lower
  end.

Definition detect_language (text : str) : str :=
  let text_lower := lower text in
  detect_loop urdu_patterns text_lower.

End regex.

(** *** clean_text *)

(** [re.sub(r'\n{3,}', '\n\n', x)]: scanning left to right, [run] counts
    the newlines of the run being read; when the run ends it is written
    back as two newlines if it had three or more, unchanged otherwise. *)
Definition flush_run (run : nat) : str :=
  if (3 <=? run)%nat then [nl; nl] else replicate run nl.

Fixpoint re_sub_newlines_from (run : nat) (x : str) : str :=
  match x with
  | [] => flush_run run
  | c :: x' =>
      if c =? nl then re_sub_newlines_from (S run) x'
      else flush_run run ++ c :: re_sub_newlines_from 0 x'
  end.

Definition re_sub_newlines (x : str) : str := re_sub_newlines_from 0 x.

Definition clean_text `{PyRuntime} (text : str) : str :=
  if bool_decide (text = []) then []
  else
    let lines := Py.split nl text in
    let cleaned_lines := map Py.strip lines in
    let cleaned_text := Py.join [nl] cleaned_lines in
    let cleaned_text := re_sub_newlines cleaned_text in
    Py.strip cleaned_text.

(** *** Tag normalisation *)

Definition merge_rules : list (str * list str) :=
  [ (lit "Financial Planning",
       map lit ["Budgeting"; "Budget"; "Finance"; "Money Management"]%string);
    (lit "Investment",
       map lit ["Investing"; "Trading"; "Portfolio"; "Wealth"]%string);
    (lit "Cryptocurrency",
       map lit ["Crypto"; "Bitcoin"; "Ethereum"; "Blockchain"]%string);
    (lit "Career Development",
       map lit ["Career Growth"; "Professional Growth"; "Job Search"; "Career"]%string);
    (lit "Entrepreneurship",
       map lit ["Startup"; "Business"; "Entrepreneur"]%string);
    (lit "Technology",
       map lit ["Tech"; "AI"; "Software"; "Digital"]%string);
    (lit "Marketing",
       map lit ["Branding"; "Social Media"; "Content Marketing"]%string);
    (lit "Personal Growth",
       map lit ["Self Development"; "Learning"; "Motivation"]%string);
    (lit "Leadership",
       map lit ["Management"; "Team Building"]%string);
    (lit "Networking",
       map lit ["Professional Network"; "Connections"]%string);
    (lit "Industry Insights",
       map lit ["Market Trends"; "Analysis"]%string);
    (lit "General",
       map lit ["Pakistan"; "Karachi"; "Lahore"; "Islamabad"; "Location"; "City"]%string) ].

Definition generic_tags : list str :=
  map lit ["Business"; "Technology"; "Career Development"; "Personal Growth"]%string.

Definition main_categories : list (str * list str) :=
  [ (lit "Career Development",
       map lit ["job"; "career"; "interview"; "resume"; "hiring"; "work"; "employment"]%string);
    (lit "Entrepreneurship",
       map lit ["startup"; "business"; "entrepreneur"; "company"; "founder"]%string);
    (lit "Technology",
       map lit ["tech"; "ai"; "software"; "coding"; "digital"; "development"]%string);
    (lit "Investment",
       map lit ["investment"; "crypto"; "trading"; "portfolio"; "wealth"; "money"]%string);
    (lit "Marketing",
       map lit ["marketing"; "brand"; "content"; "social"; "advertising"]%string);
    (lit "Personal Growth",
       map lit ["growth"; "learning"; "motivation"; "success"; "development"]%string);
    (lit "Leadership",
       map lit ["leadership"; "management"; "team"; "leader"; "mentor"]%string);
    (lit "Networking",
       map lit ["network"; "connection"; "linkedin"; "professional"; "relationship"]%string);
    (lit "Education",
       map lit ["education"; "learning"; "skill"; "training"; "course"]%string);
    (lit "Healthcare",
       map lit ["health"; "medical"; "healthcare"; "wellness"; "fitness"]%string);
    (lit "Finance",
       map lit ["financial"; "budget"; "planning"; "economy"; "banking"]%string);
    (lit "Sales",
       map lit ["sales"; "customer"; "client"; "revenue"; "deal"]%string);
    (lit "Consulting",
       map lit ["consulting"; "advice"; "strategy"; "solution"; "expert"]%string);
    (lit "Innovation",
       map lit ["innovation"; "creative"; "idea"; "solution"; "breakthrough"]%string);
    (lit "Communication",
       map lit ["communication"; "presentation"; "speaking"; "writing"; "message"]%string) ].

Section cleaner.
Context `{PyRuntime}.

(** The loop over [merge_rules.items()]: the main tag of the first rule
    that fires, [None] when the loop runs to its end. *)
Fixpoint merge_loop (rules : list (str * list str)) (new_tag : str)
  : option str :=
  match rules with
  | [] => None
  | (main_tag, synonyms) :: rest =>
      if Py.mem new_tag synonyms
         || existsb (λ syn, Py.contains (lower syn) (lower new_tag)) synonyms
      then Some main_tag
      else if Py.contains (lower main_tag) (lower new_tag)
              || Py.contains (lower new_tag) (lower main_tag)
      then Some main_tag
      else merge_loop rest new_tag
  end.

(** [new_words & existing_words] is non-empty. *)
Definition word_overlap (a b : str) : bool :=
  existsb (λ w, Py.mem w (Py.split_ws b)) (Py.split_ws a).

Definition find_most_similar_existing_tag (self : LinkedInPostCleaner)
    (new_tag : str) : str :=
  let new_tag_lower := lower new_tag in
  match find (λ existing_tag, word_overlap new_tag_lower (lower existing_tag))
             (set_iter (discovered_tags self)) with
  | Some existing_tag => existing_tag
  | None =>
      match find (λ generic, bool_decide (generic ∈ discovered_tags self))
                 generic_tags with
      | Some generic => generic
      | None =>
          match set_iter (discovered_tags self) with
          | first :: _ => first
          | [] => lit "General"
          end
      end
  end.

(** Returns the tag and the object after the call. *)
Definition normalize_and_merge_tags (self : LinkedInPostCleaner)
    (new_tag : str) : str * LinkedInPostCleaner :=
  let new_tag := title (Py.strip new_tag) in
  match merge_loop merge_rules new_tag with
  | Some main_tag =>
      (main_tag,
       mkCleaner (discovered_tags self) (max_tags self)
                 (<[new_tag := main_tag]> (tag_synonyms self)))
  | None =>
      if (size (discovered_tags self) <? max_tags self)%nat
      then (new_tag, self)
      else (find_most_similar_existing_tag self new_tag, self)
  end.

(** [self.discovered_tags.add(tag)] *)
Definition add_tag (self : LinkedInPostCleaner) (tag : str)
  : LinkedInPostCleaner :=
  mkCleaner ({[tag]} ∪ discovered_tags self) (max_tags self) (tag_synonyms self).

(** Number of keywords that occur in the text. *)
Definition score (text_lower : str) (keywords : list str) : nat :=
  length (List.filter (λ keyword, Py.contains keyword text_lower) keywords).

(** The loop of [extract_tags_fallback] over [main_categories.items()],
    carrying [(best_match, max_score)]. *)
Fixpoint best_loop (categories : list (str * list str)) (text_lower : str)
    (best_match : str) (max_score : nat) : str * nat :=
  match categories with
  | [] => (best_match, max_score)
  | (category, keywords) :: rest =>
      let sc := score text_lower keywords in
      if (max_score <? sc)%nat then best_loop rest text_lower category sc
      else best_loop rest text_lower best_match max_score
  end.

Definition best_category (text_lower : str) : str :=
  fst (best_loop main_categories text_lower (lit "Business") 0).

Definition extract_tags_fallback (self : LinkedInPostCleaner) (text : str)
  : list str * LinkedInPostCleaner :=
  let text_lower := lower text in
  let best_match := best_category text_lower in
  let '(normalized_tag, self) := normalize_and_merge_tags self best_match in
  ([normalized_tag], add_tag self normalized_tag).

(** [response] is the content of the model's reply, [None] when the call
    (or reading its reply) raises. *)
Definition discover_tags_from_text (self : LinkedInPostCleaner) (text : str)
    (response : option str) : list str * LinkedInPostCleaner :=
  match response with
  | Some content =>
      let raw_tag := Py.strip content in
      let '(normalized_tag, self) := normalize_and_merge_tags self raw_tag in
      ([normalized_tag], add_tag self normalized_tag)
  | None => extract_tags_fallback self text
  end.

(** The calls that touch the tag state, and a run of them. *)
Inductive call :=
  | Normalize (new_tag : str)
  | Discover (text : str) (response : option str)
  | Fallback (text : str).

Definition step (self : LinkedInPostCleaner) (c : call) : LinkedInPostCleaner :=
  match c with
  | Normalize new_tag => snd (normalize_and_merge_tags self new_tag)
  | Discover text response => snd (discover_tags_from_text self text response)
  | Fallback text => snd (extract_tags_fallback self text)
  end.

Definition run (self : LinkedInPostCleaner) (calls : list call)
  : LinkedInPostCleaner :=
  fold_left step calls self.

(** *** The per-post pipeline and the batch driver *)

Definition count_lines (text : str) : nat :=
  if bool_decide (Py.strip text = []) then 0%nat
  else length (Py.split nl text).

(** [if key in post_data and post_data[key]: engagement += len(...)]:
    what the field adds, [None] when [len] raises. *)
Definition engagement_of (post_data : list (str * Py.json)) (key : str)
  : option nat :=
  match Py.dict_get post_data key with
  | Some v => if Py.truthy v then Py.len v else Some 0%nat
  | None => Some 0%nat
  end.

Definition calculate_engagement (post_data : list (str * Py.json))
  : option nat :=
  match engagement_of post_data (lit "reactions") with
  | Some reactions =>
      match engagement_of post_data (lit "comments") with
      | Some comments => Some (reactions + comments)%nat
      | None => None
      end
  | None => None
  end.

(** [clean_text] on whatever value the [text] key holds: a falsy value
    gives the empty string, a truthy value that is no string has no
    [split] and raises. *)
Definition clean_text_value (text : Py.json) : option str :=
  if Py.truthy text then
    match text with
    | Py.JStr s => Some (clean_text s)
    | _ => None
    end
  else Some [].

(** What [process_posts] sees of one call of [process_single_post]: an
    exception, [None], or the processed post. *)
Inductive outcome :=
  | Raised
  | Skipped
  | Processed (post : few_shots.Post).

(** [response] is the reply the model gives for this post, as in
    [discover_tags_from_text]. *)
Definition process_single_post (self : LinkedInPostCleaner)
    (post_data : Py.json) (response : option str)
  : outcome * LinkedInPostCleaner :=
  match post_data with
  | Py.JObj fields =>
      let raw_text := default (Py.JStr []) (Py.dict_get fields (lit "text")) in
      match clean_text_value raw_text with
      | None => (Raised, self)
      | Some cleaned_text =>
          if bool_decide (cleaned_text = []) then (Skipped, self)
          else
            match calculate_engagement fields with
            | None => (Raised, self)
            | Some engagement =>
                let line_count := count_lines cleaned_text in
                let language := detect_language cleaned_text in
                let '(tags, self) :=
                  discover_tags_from_text self cleaned_text response in
                (Processed
                   (few_shots.mkPost cleaned_text (Z.of_nat engagement)
                      (Z.of_nat line_count) language tags),
                 self)
            end
      end
  | _ => (Raised, self)
  end.

(** The loop of [process_posts]: a post that raises or is skipped adds
    nothing, and the loop goes on. *)
Fixpoint process_posts (self : LinkedInPostCleaner)
    (posts_data : list (Py.json * option str))
  : list few_shots.Post * LinkedInPostCleaner :=
  match posts_data with
  | [] => ([], self)
  | (post_data, response) :: rest =>
      let '(o, self) := process_single_post self post_data response in
      let '(processed_posts, self) := process_posts self rest in
      (match o with
       | Processed post => post :: processed_posts
       | _ => processed_posts
       end, self)
  end.

(** The document [save_results] writes. *)
Record FinalOutput := mkFinalOutput {
  out_posts : list few_shots.Post;
  out_discovered_tags : list str;
  out_tag_synonyms : gmap str str;
  out_total_posts : nat;
  out_total_unique_tags : nat;
}.

Definition save_results (self : LinkedInPostCleaner)
    (processed_posts : list few_shots.Post) : FinalOutput :=
  let final_tags :=
    take (max_tags self) (Py.sorted (set_iter (discovered_tags self))) in
  mkFinalOutput processed_posts final_tags (tag_synonyms self)
    (length processed_posts) (length final_tags).

End cleaner.

End pre_processing.

(** ** Vocabulary of the statements *)

Section vocabulary.
Import few_shots post_generator pre_processing.

(** The row mask of [get_filtered_posts] as one test per row. *)
Definition row_matches (length language tag : str) (r : Row) : bool :=
  Py.mem tag (col_tags r)
  && bool_decide (col_language r = language)
  && bool_decide (col_length r = length).

(** The corpus of the end-to-end scenario: one two-line English post. *)
Definition sample_posts : list Post :=
  [ mkPost
      (lit "Saving money is hard." ++ [nl] ++ lit "But I did it anyway.")
      0 2 (lit "English") [lit "Financial Planning"] ].

Definition sample_corpus : FewShotPosts :=
  default (mkFewShotPosts [] ∅) (load_posts sample_posts).

(** [x] occurs in [y] as a contiguous run. *)
Definition occurs_in (x y : str) : Prop := ∃ pre post, y = pre ++ x ++ post.

(** The prompt for a length that is none of the three buckets, on the
    sample corpus. *)
Definition tiny_prompt : str :=
  get_prompt sample_corpus (lit "Tiny") (lit "English")
    (lit "Financial Planning") default_tone default_persona.

(** A character next to a position, or none at an end of the text. *)
Definition ascii_opt (c : option char) : bool :=
  match c with
  | Some c => c <? 128
  | None => true
  end.

(** What it is for a pattern to match somewhere in a text: a code point
    of the class occurs, or an alternative occurs with a word boundary on
    each side. *)
Definition pattern_matches `{PyRuntime} (p : pattern) (t : str) : Prop :=
  match p with
  | CodeRange lo hi => ∃ c, c ∈ t ∧ lo ≤ c ≤ hi
  | WordAlt alternatives =>
      ∃ w pre post, w ∈ alternatives ∧ t = pre ++ w ++ post
        ∧ at_boundary (last pre) (head (w ++ post)) = true
        ∧ at_boundary (last (pre ++ w)) (head post) = true
  end.

Definition pattern_is_ascii (p : pattern) : bool :=
  match p with
  | CodeRange _ _ => true
  | WordAlt alternatives => forallb is_ascii alternatives
  end.

(** A string with no space at either end. *)
Definition trimmed (sp : N → bool) (x : str) : Prop :=
  (∀ c, head x = Some c → sp c = false) ∧ (∀ c, last x = Some c → sp c = false).

(** The substitution read as a rule on suffixes: a newline that opens a
    run of three or more is dropped, every other character is kept. *)
Definition starts3 (x : str) : bool := Py.starts_with [nl; nl; nl] x.

Fixpoint squeeze (x : str) : str :=
  match x with
  | [] => []
  | c :: x' => if starts3 (c :: x') then squeeze x' else c :: squeeze x'
  end.

(** No three newlines in a row. *)
Definition triple_free (x : str) : Prop :=
  ∀ pre post, x ≠ pre ++ [nl; nl; nl] ++ post.

(** The three properties of a cleaned text. *)
Definition cleaned `{PyRuntime} (y : str) : Prop :=
  Forall (trimmed isspace) (Py.split nl y) ∧ triple_free y ∧ trimmed isspace y.

(** The text with each line stripped, the lines joined again: what
    [clean_text] hands to the substitution. *)
Definition trimmed_lines `{PyRuntime} (x : str) : str :=
  Py.join [nl] (map Py.strip (Py.split nl x)).

(** The characters of a text that are not white space, in order. *)
Definition visible `{PyRuntime} (x : str) : str :=
  List.filter (λ c, negb (isspace c)) x.

(** [new_tag.strip().title()] *)
Definition normal_form `{PyRuntime} (new_tag : str) : str := title (Py.strip new_tag).

Definition rule_is_ascii (rule : list N * list (list N)) : bool :=
  is_ascii rule.1 && forallb is_ascii rule.2.

Definition financial_planning : list N := lit "Financial Planning".
Definition entrepreneurship : list N := lit "Entrepreneurship".

(** The twelve keys of [merge_rules]. *)
Definition canonical_tags : list (list N) :=
  map lit ["Financial Planning"; "Investment"; "Cryptocurrency";
           "Career Development"; "Entrepreneurship"; "Technology";
           "Marketing"; "Personal Growth"; "Leadership"; "Networking";
           "Industry Insights"; "General"]%string.

(** Every recorded synonym points at a key of [merge_rules]. *)
Definition synonyms_canonical (self : LinkedInPostCleaner) : Prop :=
  ∀ k v, tag_synonyms self !! k = Some v → v ∈ canonical_tags.

(** A run of model replies each of which merges or arrives below the
    cap: such a run never consults the iteration order of the set. *)
Fixpoint order_free (self : LinkedInPostCleaner) (text : str)
    (contents : list (list N)) : bool :=
  match contents with
  | [] => true
  | content :: rest =>
      is_ascii content
      && (bool_decide
            (@merge_loop ascii_runtime merge_rules
               (@normal_form ascii_runtime (@Py.strip ascii_runtime content))
             ≠ None)
          || (size (discovered_tags self) <? max_tags self)%nat)
      && order_free
           (@discover_tags_from_text ascii_runtime self text (Some content)).2
           text rest
  end.

(** Fifteen topics that no merge rule touches, then one that merges. *)
Definition sixteen_replies : list (list N) :=
  map lit ["Health"; "Sales"; "Education"; "Sports"; "Music"; "Cooking";
           "Law"; "Physics"; "Poetry"; "Gardening"; "Fishing"; "Hockey";
           "Chess"; "Yoga"; "Drums"; "Budget"]%string.

Definition sixteen_calls : list call :=
  map (λ content, Discover (lit "post") (Some content)) sixteen_replies.

(** The part of the cap the code does keep: only a merge adds a tag at
    or above the cap, so the tags outside the keys of [merge_rules] never
    number more than [max_tags], and the whole set stays within the cap
    plus the twelve keys. *)
Definition noncanonical (X : gset (list N)) : gset (list N) :=
  filter (λ t, t ∉ canonical_tags) X.

Definition cap_inv (self : LinkedInPostCleaner) : Prop :=
  max_tags self = 15%nat ∧ (size (noncanonical (discovered_tags self)) ≤ 15)%nat.

(** *** Vocabulary of the further properties *)

(** Number of newline characters. *)
Definition newlines (x : str) : nat := count_occ N.eq_dec x nl.

(** The tags the keyword fallback can produce: the categories as
    [normalize_and_merge_tags] leaves them, "Finance" merged into
    "Financial Planning" and the default "Business" into
    "Entrepreneurship". *)
Definition fallback_tags : list (list N) :=
  map lit ["Career Development"; "Entrepreneurship"; "Technology";
           "Investment"; "Marketing"; "Personal Growth"; "Leadership";
           "Networking"; "Education"; "Healthcare"; "Financial Planning";
           "Sales"; "Consulting"; "Innovation"; "Communication"]%string.

(** A fallback category, normalised under the ASCII runtime, lands in
    [fallback_tags]. *)
Definition lands_in_fallback_tags (category : list N) : bool :=
  is_ascii category
  && match @merge_loop ascii_runtime merge_rules
             (@normal_form ascii_runtime category) with
     | Some main_tag => bool_decide (main_tag ∈ fallback_tags)
     | None => bool_decide (@normal_form ascii_runtime category ∈ fallback_tags)
     end.

(** A key of [merge_rules] is its own normal form and merges into
    itself. *)
Definition merges_into_itself (tag : list N) : bool :=
  is_ascii tag
  && bool_decide (@normal_form ascii_runtime tag = tag)
  && bool_decide (@merge_loop ascii_runtime merge_rules tag = Some tag).

(** What a run of fallbacks keeps. *)
Definition fallback_inv (self : LinkedInPostCleaner) : Prop :=
  max_tags self = 15%nat
  ∧ discovered_tags self ⊆ list_to_set fallback_tags.


(** A raw post that [process_single_post] turns into a record: a dict
    whose text cleans to a non-empty string and whose engagement can be
    counted. *)
Definition survives `{PyRuntime} (post_data : Py.json) : bool :=
  match post_data with
  | Py.JObj fields =>
      match clean_text_value
              (default (Py.JStr []) (Py.dict_get fields (lit "text"))) with
      | Some cleaned_text =>
          negb (bool_decide (cleaned_text = []))
          && bool_decide (calculate_engagement fields ≠ None)
      | None => false
      end
  | _ => false
  end.

(** What every processed post satisfies, [tags_found] being the tags
    found when the batch ends. *)
Definition well_formed_post `{PyRuntime} (tags_found : gset (list N))
    (p : few_shots.Post) : Prop :=
  few_shots.text p ≠ []
  ∧ clean_text (few_shots.text p) = few_shots.text p
  ∧ few_shots.line_count p = Z.of_nat (count_lines (few_shots.text p))
  ∧ (1 ≤ few_shots.line_count p)%Z
  ∧ (0 ≤ few_shots.engagement p)%Z
  ∧ few_shots.language p = detect_language (few_shots.text p)
  ∧ (few_shots.language p = lit "English"
     ∨ few_shots.language p = lit "Urduish")
  ∧ ∃ tag, few_shots.tags p = [tag] ∧ tag ∈ tags_found.


(** The raw post of the end-to-end scenario, with three reactions and
    two comments, and the reply "Budgeting". *)
Definition sample_raw_post : Py.json :=
  Py.JObj
    [ (lit "text",
       Py.JStr (lit "  Saving money is hard.  " ++ [nl]
                ++ lit "But I did it anyway." ++ [nl; nl]));
      (lit "reactions", Py.JList [Py.JNull; Py.JNull; Py.JNull]);
      (lit "comments", Py.JList [Py.JNull; Py.JNull]) ].

Definition sample_batch : list (Py.json * option (list N)) :=
  [ (Py.JNum 7, None);
    (sample_raw_post, Some (lit "Budgeting"));
    (Py.JObj [(lit "text", Py.JStr (lit "   "))], None) ].

Definition sample_processed : Post :=
  mkPost (lit "Saving money is hard." ++ [nl] ++ lit "But I did it anyway.")
    5 2 (lit "English") [lit "Financial Planning"].

(** The three values of the derived [length] column. *)
Definition buckets : list (list N) := [lit "Short"; lit "Medium"; lit "Long"].

(** The rows with a given language and tag, whatever their length. *)
Definition language_tag_matches (language tag : list N) (r : Row) : bool :=
  Py.mem tag (col_tags r) && bool_decide (col_language r = language).

(** A tag of the corpus file as [load_posts] stores it among the unique
    tags: double quotes stripped from both ends, then single quotes. *)
Definition unquoted (tag : list N) : list N :=
  Py.strip_char 39 (Py.strip_char 34 tag).

End vocabulary.

(** ** Facts about the string primitives *)

Section strings.

Lemma starts_with_spec (a b : str) :
  Py.starts_with a b = true ↔ ∃ post, b = a ++ post.
Proof.
  revert b. induction a as [|c a IH]; intros b; simpl.
  - split; [eauto | done].
  - destruct b as [|d b].
    + split; [done | intros [post Hp]; discriminate].
    + rewrite andb_true_iff, N.eqb_eq, IH. split.
      * intros [-> [post ->]]. eauto.
      * intros [post Hp]. injection Hp as -> ->. eauto.
Qed.

(** [a in b] holds exactly when [b] splits around a copy of [a]. *)
Lemma contains_spec (a b : str) :
  Py.contains a b = true ↔ ∃ pre post, b = pre ++ a ++ post.
Proof.
  induction b as [|d b IH]; simpl.
  - rewrite orb_false_r, starts_with_spec. split.
    + intros [post Hp]. by exists [], post.
    + intros (pre & post & Hp). destruct pre; [by exists post|discriminate].
  - rewrite orb_true_iff, starts_with_spec, IH. split.
    + intros [[post Hp] | (pre & post & ->)].
      * by exists [], post.
      * by exists (d :: pre), post.
    + intros (pre & post & Hp). destruct pre as [|e pre]; simpl in Hp.
      * left. eauto.
      * right. injection Hp as _ ->. eauto.
Qed.

Lemma mem_spec (x : str) (xs : list str) : Py.mem x xs = true ↔ x ∈ xs.
Proof. unfold Py.mem. by rewrite bool_decide_eq_true. Qed.

End strings.

(** ** few_shots.py: the corpus filter *)

Section few_shots_facts.
Import few_shots.

Lemma bucket_names_distinct :
  lit "Short" ≠ lit "Medium" ∧ lit "Short" ≠ lit "Long" ∧ lit "Medium" ≠ lit "Long".
Proof. by vm_compute. Qed.

(** C3: [categorize_length n] is "Short" exactly when [n < 5], "Medium"
    exactly when [5 <= n <= 10] and "Long" exactly when [n > 10]; the
    boundary inputs 4, 5, 10 and 11 give Short, Medium, Medium, Long. *)
Theorem categorize_length_spec (n : Z) :
  (categorize_length n = lit "Short" ↔ (n < 5)%Z)
  ∧ (categorize_length n = lit "Medium" ↔ (5 ≤ n ≤ 10)%Z)
  ∧ (categorize_length n = lit "Long" ↔ (n > 10)%Z)
  ∧ categorize_length 4 = lit "Short"
  ∧ categorize_length 5 = lit "Medium"
  ∧ categorize_length 10 = lit "Medium"
  ∧ categorize_length 11 = lit "Long".
Proof.
  destruct bucket_names_distinct as (Hsm & Hsl & Hml).
  unfold categorize_length.
  repeat split; try reflexivity;
    destruct (Z.ltb_spec n 5); destruct (Z.leb_spec 5 n);
    destruct (Z.leb_spec n 10); simpl; try lia; try done; intros; congruence.
Qed.

Lemma mask_select {A} (f1 f2 f3 : A → bool) (l : list A) :
  map fst (List.filter snd
    (zip l (zip_with andb (zip_with andb (map f1 l) (map f2 l)) (map f3 l))))
  = List.filter (λ r, f1 r && f2 r && f3 r) l.
Proof.
  induction l as [|r l IH]; simpl; [done|].
  destruct (f1 r && f2 r && f3 r); simpl; by rewrite IH.
Qed.

Lemma get_filtered_posts_filter self length language tag :
  get_filtered_posts self length language tag
  = List.filter (row_matches length language tag) (df self).
Proof. unfold get_filtered_posts. apply mask_select. Qed.

Lemma row_matches_spec length language tag r :
  row_matches length language tag r = true
  ↔ col_length r = length ∧ col_language r = language ∧ tag ∈ col_tags r.
Proof.
  unfold row_matches.
  rewrite !andb_true_iff, !bool_decide_eq_true, mem_spec. tauto.
Qed.

Lemma filter_sublist {A} (f : A → bool) (l : list A) :
  sublist (List.filter f l) l.
Proof.
  induction l as [|x l IH]; simpl; [constructor|].
  destruct (f x); by constructor.
Qed.

Lemma load_posts_df posts self :
  load_posts posts = Some self →
  df self = map (λ p, mkRow p (categorize_length (line_count p))) posts.
Proof. destruct posts; [done|]. intros [= <-]. done. Qed.

(** C2: on a loaded corpus, whose rows carry the length derived from
    their line count, [get_filtered_posts] returns the rows whose length
    and language equal the arguments and whose tags contain the tag: a row
    is returned exactly when it is such a row of the frame, as often as it
    occurs there, in load order; without such a row the result is the
    empty list. *)
Theorem get_filtered_posts_spec posts self length language tag :
  load_posts posts = Some self →
  let result := get_filtered_posts self length language tag in
  let wanted r :=
    col_length r = length ∧ col_language r = language ∧ tag ∈ col_tags r in
  (∀ r, r ∈ df self → col_length r = categorize_length (line_count (post r)))
  ∧ (∀ r, r ∈ result ↔ r ∈ df self ∧ wanted r)
  ∧ sublist result (df self)
  ∧ (∀ a r b, df self = a ++ r :: b → wanted r →
       result = get_filtered_posts (mkFewShotPosts a ∅) length language tag
                ++ r :: get_filtered_posts (mkFewShotPosts b ∅) length language tag)
  ∧ ((∀ r, r ∈ df self → ¬ wanted r) → result = []).
Proof.
  intros Hload result wanted. subst result.
  rewrite get_filtered_posts_filter.
  split; [|split; [|split; [|split]]].
  - intros r Hr. rewrite (load_posts_df _ _ Hload) in Hr.
    apply list_elem_of_fmap in Hr as (p & -> & _). done.
  - intros r. rewrite !list_elem_of_In, filter_In, row_matches_spec. done.
  - apply filter_sublist.
  - intros a r b Hdf Hw. rewrite !get_filtered_posts_filter. simpl.
    rewrite Hdf, List.filter_app. simpl.
    apply row_matches_spec in Hw. by rewrite Hw.
  - intros Hnone. induction (df self) as [|r l IH]; simpl; [done|].
    destruct (row_matches length language tag r) eqn:Hr.
    + apply row_matches_spec in Hr. destruct (Hnone r); [left|done].
    + apply IH. intros r' Hr'. apply Hnone. by right.
Qed.

(** The end-to-end scenario: the one-post corpus loads, and the filter
    for ("Short", "English", "Financial Planning") obeys C2 on it. *)
Lemma get_filtered_posts_spec_witness :
  load_posts sample_posts = Some sample_corpus
  ∧ (let result :=
       get_filtered_posts sample_corpus (lit "Short") (lit "English")
         (lit "Financial Planning") in
     let wanted r :=
       col_length r = lit "Short" ∧ col_language r = lit "English"
       ∧ lit "Financial Planning" ∈ col_tags r in
     (∀ r, r ∈ df sample_corpus →
        col_length r = categorize_length (line_count (post r)))
     ∧ (∀ r, r ∈ result ↔ r ∈ df sample_corpus ∧ wanted r)
     ∧ sublist result (df sample_corpus)
     ∧ (∀ a r b, df sample_corpus = a ++ r :: b → wanted r →
          result
          = get_filtered_posts (mkFewShotPosts a ∅) (lit "Short")
              (lit "English") (lit "Financial Planning")
            ++ r :: get_filtered_posts (mkFewShotPosts b ∅) (lit "Short")
                      (lit "English") (lit "Financial Planning"))
     ∧ ((∀ r, r ∈ df sample_corpus → ¬ wanted r) → result = [])).
Proof.
  split; [reflexivity|].
  apply (get_filtered_posts_spec sample_posts sample_corpus).
  reflexivity.
Defined.

End few_shots_facts.

(** ** post_generator.py: the prompt *)

Section post_generator_facts.
Import few_shots post_generator.

Lemma occurs_in_concat (x : str) (parts : list str) :
  x ∈ parts → occurs_in x (concat parts).
Proof.
  intros (a & b & ->)%list_elem_of_split.
  exists (concat a), (concat b). by rewrite concat_app.
Qed.

Lemma occurs_in_concat_run (run a b : list str) :
  occurs_in (concat run) (concat (a ++ run ++ b)).
Proof. exists (concat a), (concat b). by rewrite !concat_app. Qed.

Lemma occurs_in_app_l (x y z : str) : occurs_in x y → occurs_in x (y ++ z).
Proof.
  intros (pre & post & ->). exists pre, (post ++ z). by rewrite <- !app_assoc.
Qed.

(** The examples appended by the loop: those at indices 0 and 1. *)
Lemma examples_loop_take (examples : list Row) (prompt : str) :
  examples_loop 0 examples prompt
  = prompt ++ concat (imap example_block (take 2 examples)).
Proof.
  destruct examples as [|r0 [|r1 rest]]; simpl;
    rewrite ?app_nil_r, <- ?app_assoc; done.
Qed.

Lemma get_prompt_unfold few_shot length language tag tone persona :
  get_prompt few_shot length language tag tone persona
  = concat (prompt_parts persona tag (get_length_str length) language)
    ++ concat (imap example_block
                 (take 2 (get_filtered_posts few_shot length language tag))).
Proof.
  unfold get_prompt.
  destruct (get_filtered_posts few_shot length language tag) as [|r l] eqn:He.
  - simpl. by rewrite app_nil_r.
  - change (0 <? List.length (r :: l))%nat with true. cbv iota.
    apply examples_loop_take.
Qed.

Lemma example_labels :
  Py.str_of_nat 1 = lit "1" ∧ Py.str_of_nat 2 = lit "2".
Proof. by vm_compute. Qed.

(** C7, as stated, fails: for the length "Tiny" the filter returns no
    example, [get_length_str] gives no range, and the prompt holds none
    of the three length ranges; its length line reads "None". *)
Lemma get_prompt_unknown_length_counterexample :
  get_filtered_posts sample_corpus (lit "Tiny") (lit "English")
    (lit "Financial Planning") = []
  ∧ get_length_str (lit "Tiny") = None
  ∧ ¬ occurs_in (lit "1 to 5 lines") tiny_prompt
  ∧ ¬ occurs_in (lit "6 to 10 lines") tiny_prompt
  ∧ ¬ occurs_in (lit "11 to 15 lines") tiny_prompt
  ∧ occurs_in (lit "2) Post Length: None" ++ [nl]) tiny_prompt.
Proof.
  split; [by vm_compute|]. split; [by vm_compute|].
  unfold occurs_in. rewrite <- !contains_spec, !not_true_iff_false.
  by vm_compute.
Qed.

(** C7, amended: the prompt is the instruction text followed by one
    block per example among the first two that the filter returns, the
    block at index [i] being two newlines, the label "Example i+1:", two
    newlines and the example's text; with no example the prompt is the
    instruction text alone; the instruction text holds the topic line,
    the language line and the two language instructions, and the length
    line, which shows the range of a "Short", "Medium" or "Long" length
    and reads "None" for any other length. *)
Theorem get_prompt_spec few_shot length language tag tone persona :
  let examples := get_filtered_posts few_shot length language tag in
  let instructions :=
    concat (prompt_parts persona tag (get_length_str length) language) in
  let prompt := get_prompt few_shot length language tag tone persona in
  prompt = instructions ++ concat (imap example_block (take 2 examples))
  ∧ (List.length (take 2 examples) ≤ 2)%nat
  ∧ (∀ r, example_block 0 r = [nl; nl] ++ lit "Example 1:" ++ [nl; nl] ++ col_text r)
  ∧ (∀ r, example_block 1 r = [nl; nl] ++ lit "Example 2:" ++ [nl; nl] ++ col_text r)
  ∧ (examples = [] → prompt = instructions)
  ∧ occurs_in (lit "1) Topic: " ++ tag ++ [nl]) instructions
  ∧ occurs_in (lit "3) Language: " ++ language ++ [nl]) instructions
  ∧ occurs_in (lit "   - If " ++ dq ++ lit "Urduish" ++ dq
               ++ lit ", write in Roman Urdu blended with English naturally.")
              instructions
  ∧ occurs_in (lit "   - If " ++ dq ++ lit "English" ++ dq
               ++ lit ", keep it clean, modern, and simple.")
              instructions
  ∧ (length = lit "Short" →
       occurs_in (lit "2) Post Length: 1 to 5 lines" ++ [nl]) instructions)
  ∧ (length = lit "Medium" →
       occurs_in (lit "2) Post Length: 6 to 10 lines" ++ [nl]) instructions)
  ∧ (length = lit "Long" →
       occurs_in (lit "2) Post Length: 11 to 15 lines" ++ [nl]) instructions)
  ∧ (length ∉ [lit "Short"; lit "Medium"; lit "Long"] →
       get_length_str length = None
       ∧ occurs_in (lit "2) Post Length: None" ++ [nl]) instructions).
Proof.
  intros examples instructions prompt.
  assert (Hparts : ∀ run : list str,
            (∃ a b, prompt_parts persona tag (get_length_str length) language
                    = a ++ run ++ b) →
            occurs_in (concat run) instructions).
  { intros run (a & b & Hab). unfold instructions. rewrite Hab.
    apply occurs_in_concat_run. }
  split; [apply get_prompt_unfold|].
  split; [rewrite length_take; lia|].
  split; [done|]. split; [done|].
  split.
  { intros He. unfold prompt. rewrite get_prompt_unfold. fold examples.
    rewrite He. simpl. by rewrite app_nil_r. }
  split.
  { apply (Hparts [lit "1) Topic: "; tag; [nl]]).
    by eexists (take 17 (prompt_parts persona tag (get_length_str length) language)), _. }
  split.
  { apply (Hparts [lit "3) Language: "; language; [nl]]).
    by eexists (take 23 (prompt_parts persona tag (get_length_str length) language)), _. }
  split.
  { apply (Hparts [lit "   - If "; dq; lit "Urduish"; dq; lit ", write in Roman Urdu blended with English naturally."]).
    by eexists (take 26 (prompt_parts persona tag (get_length_str length) language)), _. }
  split.
  { apply (Hparts [lit "   - If "; dq; lit "English"; dq; lit ", keep it clean, modern, and simple."]).
    by eexists (take 32 (prompt_parts persona tag (get_length_str length) language)), _. }
  assert (Hlen : occurs_in
            (concat [lit "2) Post Length: "; fmt_value (get_length_str length); [nl]])
            instructions).
  { apply (Hparts [lit "2) Post Length: "; fmt_value (get_length_str length); [nl]]).
    by eexists (take 20 (prompt_parts persona tag (get_length_str length) language)), _. }
  split; [intros Hl; rewrite Hl in Hlen; exact Hlen|].
  split; [intros Hl; rewrite Hl in Hlen; exact Hlen|].
  split; [intros Hl; rewrite Hl in Hlen; exact Hlen|].
  intros Hother.
  assert (Hnone : get_length_str length = None).
  { unfold get_length_str. repeat case_bool_decide; try done;
      destruct Hother; subst length; set_solver. }
  split; [exact Hnone|]. rewrite Hnone in Hlen. exact Hlen.
Qed.

End post_generator_facts.

(** ** pre_processing.py: language detection *)

Section ascii_facts.

Lemma is_ascii_Forall (x : str) : is_ascii x = true ↔ Forall (λ c, c < 128) x.
Proof.
  induction x as [|c x IH]; simpl; [by split|].
  rewrite andb_true_iff, Forall_cons, IH, N.ltb_lt. done.
Qed.

Lemma is_ascii_app (x y : str) :
  is_ascii (x ++ y) = is_ascii x && is_ascii y.
Proof. apply forallb_app. Qed.

Lemma is_ascii_drop (n : nat) (x : str) :
  is_ascii x = true → is_ascii (drop n x) = true.
Proof. rewrite !is_ascii_Forall. apply Forall_drop. Qed.

Lemma is_ascii_map_lower (x : str) :
  is_ascii x = true → is_ascii (map ascii_lower x) = true.
Proof.
  rewrite !is_ascii_Forall. intros Hx. apply Forall_fmap.
  eapply Forall_impl; [exact Hx|]. intros c Hc. unfold compose, ascii_lower, in_range. cbv beta in Hc.
  destruct (N.leb_spec 65 c); destruct (N.leb_spec c 90); cbn [andb]; lia.
Qed.

Lemma ascii_opt_head (x : str) : is_ascii x = true → ascii_opt (head x) = true.
Proof. destruct x; simpl; [done|]. by intros [? _]%andb_true_iff. Qed.

Lemma ascii_opt_last (x : str) : is_ascii x = true → ascii_opt (last x) = true.
Proof.
  induction x as [|c [|d x] IH]; simpl; [done| |].
  - by rewrite andb_true_r.
  - intros [_ Hx]%andb_true_iff. by apply IH.
Qed.

Lemma is_ascii_option_list (c : option char) :
  ascii_opt c = true → is_ascii (option_list c) = true.
Proof. destruct c; simpl; [|done]. by rewrite andb_true_r. Qed.

End ascii_facts.

Section detect_language_facts.
Import pre_processing.

Lemma last_option_list (c : option char) : last (option_list c) = c.
Proof. by destruct c. Qed.

Lemma last_app_cons {A} (a : list A) (c : A) (b : list A) :
  last (a ++ c :: b) = last (c :: b).
Proof.
  induction a as [|d a IH]; [done|].
  change ((d :: a) ++ c :: b) with (d :: (a ++ c :: b)).
  destruct (a ++ c :: b) eqn:E; [by destruct a|]. by rewrite <- IH.
Qed.

Lemma last_option_list_app (before : option char) (c : char) (x : str) :
  last (option_list before ++ c :: x) = last (c :: x).
Proof. apply last_app_cons. Qed.

Lemma alt_matches_at_spec `{PyRuntime} (before : option char) (t w : str) :
  alt_matches_at before t w = true
  ↔ ∃ post, t = w ++ post
      ∧ at_boundary before (head t) = true
      ∧ at_boundary (last (option_list before ++ w)) (head post) = true.
Proof.
  unfold alt_matches_at. rewrite !andb_true_iff, starts_with_spec. split.
  - intros [[Hb [post ->]] He]. exists post.
    by rewrite drop_app_length in He.
  - intros (post & -> & Hb & He). rewrite drop_app_length. eauto.
Qed.

Lemma search_words_spec `{PyRuntime} (alternatives : list str)
    (before : option char) (t : str) :
  search_words alternatives before t = true
  ↔ ∃ w pre post, w ∈ alternatives ∧ t = pre ++ w ++ post
      ∧ at_boundary (last (option_list before ++ pre)) (head (w ++ post)) = true
      ∧ at_boundary (last (option_list before ++ pre ++ w)) (head post) = true.
Proof.
  revert before. induction t as [|c t IH]; intros before.
  - simpl. rewrite orb_false_r, existsb_exists. split.
    + intros (w & Hw & (post & Ht & Hb & He)%alt_matches_at_spec).
      exists w, [], post. rewrite app_nil_r, last_option_list.
      rewrite <- Ht. by rewrite <- list_elem_of_In in Hw.
    + intros (w & pre & post & Hw & Ht & Hb & He).
      destruct pre; [|done]. simpl in Ht.
      exists w. rewrite <- list_elem_of_In. split; [done|].
      apply alt_matches_at_spec. exists post.
      rewrite app_nil_r, last_option_list in Hb. by rewrite Ht.
  - simpl. rewrite orb_true_iff, existsb_exists, IH. split.
    + intros [(w & Hw & (post & Ht & Hb & He)%alt_matches_at_spec)|
              (w & pre & post & Hw & Ht & Hb & He)].
      * exists w, [], post. rewrite app_nil_r, last_option_list.
        rewrite <- Ht. by rewrite <- list_elem_of_In in Hw.
      * exists w, (c :: pre), post. simpl in Hb, He. subst t.
        split; [done|]. split; [done|].
        cbn [app]. rewrite !last_option_list_app. by split.
    + intros (w & pre & post & Hw & Ht & Hb & He).
      destruct pre as [|d pre].
      * left. exists w. rewrite <- list_elem_of_In. split; [done|].
        apply alt_matches_at_spec. exists post. simpl in Ht.
        rewrite app_nil_r, last_option_list in Hb. by rewrite Ht.
      * right. injection Ht as <- ->. exists w, pre, post.
        cbn [app] in Hb, He. rewrite !last_option_list_app in Hb, He.
        by simpl.
Qed.

Lemma re_search_spec `{PyRuntime} (p : pattern) (t : str) :
  re_search p t = true ↔ pattern_matches p t.
Proof.
  destruct p as [lo hi|alternatives]; simpl.
  - rewrite existsb_exists. unfold in_range.
    split; intros (c & Hc & Hin); exists c.
    + rewrite <- list_elem_of_In in Hc.
      apply andb_true_iff in Hin as [?%N.leb_le ?%N.leb_le]. done.
    + rewrite <- list_elem_of_In. split; [done|].
      apply andb_true_iff. by rewrite !N.leb_le.
  - rewrite search_words_spec. by simpl.
Qed.

Lemma detect_loop_spec `{PyRuntime} (patterns : list pattern) (t : str) :
  (detect_loop patterns t = lit "Urduish"
     ↔ ∃ p, p ∈ patterns ∧ pattern_matches p t)
  ∧ (detect_loop patterns t = lit "English"
     ↔ ¬ ∃ p, p ∈ patterns ∧ pattern_matches p t).
Proof.
  induction patterns as [|p rest [IHu IHe]]; simpl.
  - split; split; try done.
    + intros (p & Hp & _). by apply not_elem_of_nil in Hp.
    + intros _ (p & Hp & _). by apply not_elem_of_nil in Hp.
  - destruct (re_search p t) eqn:Hp.
    + apply re_search_spec in Hp. split; split; try done.
      * intros _. exists p. split; [left|done].
      * intros Hn. destruct Hn. exists p. split; [left|done].
    + assert (Hn : ¬ pattern_matches p t).
      { rewrite <- re_search_spec. congruence. }
      rewrite IHu, IHe. split; [split|split].
      * intros (q & Hq & Hm). exists q. split; [by right|done].
      * intros (q & [->|Hq]%elem_of_cons & Hm); [done|]. eauto.
      * intros Hr (q & [->|Hq]%elem_of_cons & Hm); [done|]. apply Hr. eauto.
      * intros Hr (q & Hq & Hm). apply Hr. exists q. split; [by right|done].
Qed.

(** On ASCII text every runtime classifies word characters alike. *)
Lemma word_char_ascii `{PyRuntime} (c : option char) :
  ascii_opt c = true → word_char c = @word_char ascii_runtime c.
Proof.
  destruct c as [c|]; simpl; [|done].
  intros Hc%N.ltb_lt. by rewrite isalnum_ascii.
Qed.

Lemma alt_matches_at_ascii `{PyRuntime} (before : option char) (t w : str) :
  ascii_opt before = true → is_ascii t = true → is_ascii w = true →
  alt_matches_at before t w = @alt_matches_at ascii_runtime before t w.
Proof.
  intros Hb Ht Hw. unfold alt_matches_at, at_boundary.
  rewrite !(word_char_ascii before), !(word_char_ascii (head t)); try done.
  - rewrite !(word_char_ascii (last _)), !(word_char_ascii (head (drop _ _))); try done.
    + by apply ascii_opt_head, is_ascii_drop.
    + apply ascii_opt_last. rewrite is_ascii_app, Hw.
      by rewrite is_ascii_option_list.
  - by apply ascii_opt_head.
Qed.

Lemma search_words_ascii `{PyRuntime} (alternatives : list str)
    (before : option char) (t : str) :
  forallb is_ascii alternatives = true →
  ascii_opt before = true → is_ascii t = true →
  search_words alternatives before t
  = @search_words ascii_runtime alternatives before t.
Proof.
  intros Hws. revert before.
  assert (Hex : ∀ before t, ascii_opt before = true → is_ascii t = true →
            existsb (alt_matches_at before t) alternatives
            = existsb (@alt_matches_at ascii_runtime before t) alternatives).
  { intros before t' Hb Ht'. rewrite forallb_forall in Hws.
    clear t. induction alternatives as [|w ws IH]; simpl; [done|].
    rewrite alt_matches_at_ascii, IH; try done.
    - intros w' Hw'. apply Hws. by right.
    - apply Hws. by left. }
  induction t as [|c t IH]; intros before Hb Ht; simpl.
  - by rewrite Hex.
  - simpl in Ht. apply andb_true_iff in Ht as [Hc Ht].
    rewrite Hex, IH; try done. simpl. by rewrite Hc, Ht.
Qed.

Lemma detect_loop_ascii `{PyRuntime} (patterns : list pattern) (t : str) :
  forallb pattern_is_ascii patterns = true → is_ascii t = true →
  detect_loop patterns t = @detect_loop ascii_runtime patterns t.
Proof.
  intros Hps Ht. induction patterns as [|p rest IH]; simpl; [done|].
  simpl in Hps. apply andb_true_iff in Hps as [Hp Hps].
  rewrite IH by done. destruct p as [lo hi|alternatives]; simpl; [done|].
  by rewrite search_words_ascii.
Qed.

Lemma detect_language_ascii `{PyRuntime} (text : str) :
  is_ascii text = true →
  detect_language text = @detect_language ascii_runtime text.
Proof.
  intros Ht. unfold detect_language.
  rewrite lower_ascii by done.
  change (@lower ascii_runtime text) with (map ascii_lower text).
  apply detect_loop_ascii; [done|]. by apply is_ascii_map_lower.
Qed.

(** C5: [detect_language] answers "Urduish" exactly when one of the
    fixed patterns matches the lower-cased text, the code-point class
    U+0600 to U+06FF or a listed word between word boundaries, and
    "English" exactly when none does; "yeh mera plan hai" is Urduish and
    "This is a clean English sentence." is English. *)
Theorem detect_language_spec `{PyRuntime} (text : str) :
  (detect_language text = lit "Urduish"
     ↔ ∃ p, p ∈ urdu_patterns ∧ pattern_matches p (lower text))
  ∧ (detect_language text = lit "English"
     ↔ ¬ ∃ p, p ∈ urdu_patterns ∧ pattern_matches p (lower text))
  ∧ detect_language (lit "yeh mera plan hai") = lit "Urduish"
  ∧ detect_language (lit "This is a clean English sentence.") = lit "English".
Proof.
  destruct (detect_loop_spec urdu_patterns (lower text)) as [Hu He].
  split; [exact Hu|]. split; [exact He|].
  split; rewrite detect_language_ascii by done; by vm_compute.
Qed.

End detect_language_facts.

(** ** pre_processing.py: text cleaning *)

Section strip_facts.
Variable sp : char → bool.

Lemma lstrip_by_head (x : str) c :
  head (Py.lstrip_by sp x) = Some c → sp c = false.
Proof.
  induction x as [|d x IH]; simpl; [done|].
  destruct (sp d) eqn:Hd; [done|]. by intros [= <-].
Qed.

Lemma lstrip_by_id (x : str) :
  (∀ c, head x = Some c → sp c = false) → Py.lstrip_by sp x = x.
Proof. destruct x as [|d x]; simpl; [done|]. intros Hh. by rewrite Hh. Qed.

Lemma lstrip_by_suffix (x : str) : ∃ a, x = a ++ Py.lstrip_by sp x.
Proof.
  induction x as [|d x [a IH]]; simpl; [by exists []|].
  destruct (sp d); [|by exists []].
  exists (d :: a). simpl. by f_equal.
Qed.

Lemma rstrip_by_snoc (x : str) c :
  Py.rstrip_by sp (x ++ [c])
  = if sp c then Py.rstrip_by sp x else x ++ [c].
Proof.
  unfold Py.rstrip_by. rewrite rev_unit. simpl.
  destruct (sp c); [done|]. simpl. by rewrite rev_involutive.
Qed.

Lemma rstrip_by_last (x : str) c :
  last (Py.rstrip_by sp x) = Some c → sp c = false.
Proof.
  induction x as [|d x IH] using rev_ind; [done|].
  rewrite rstrip_by_snoc. destruct (sp d) eqn:Hd; [done|].
  rewrite last_snoc. by intros [= <-].
Qed.

Lemma rstrip_by_id (x : str) :
  (∀ c, last x = Some c → sp c = false) → Py.rstrip_by sp x = x.
Proof.
  destruct x as [|d x _] using rev_ind; [done|].
  intros Hl. rewrite rstrip_by_snoc, Hl; [done|]. by rewrite last_snoc.
Qed.

Lemma rstrip_by_prefix (x : str) : ∃ b, x = Py.rstrip_by sp x ++ b.
Proof.
  induction x as [|d x [b IH]] using rev_ind; [by exists []|].
  rewrite rstrip_by_snoc. destruct (sp d).
  - exists (b ++ [d]). by rewrite app_assoc, <- IH.
  - exists []. by rewrite app_nil_r.
Qed.

Lemma rstrip_by_head (x : str) :
  (∀ c, head x = Some c → sp c = false) →
  ∀ c, head (Py.rstrip_by sp x) = Some c → sp c = false.
Proof.
  intros Hh c Hc. destruct (rstrip_by_prefix x) as [b Hb].
  apply Hh. rewrite Hb. by destruct (Py.rstrip_by sp x).
Qed.

Lemma strip_by_trimmed (x : str) : trimmed sp (Py.strip_by sp x).
Proof.
  split.
  - apply rstrip_by_head, lstrip_by_head.
  - apply rstrip_by_last.
Qed.

Lemma trimmed_strip_by (x : str) : trimmed sp x → Py.strip_by sp x = x.
Proof.
  intros [Hh Hl]. unfold Py.strip_by.
  rewrite lstrip_by_id by done. by apply rstrip_by_id.
Qed.

Lemma strip_by_idemp (x : str) :
  Py.strip_by sp (Py.strip_by sp x) = Py.strip_by sp x.
Proof. apply trimmed_strip_by, strip_by_trimmed. Qed.

Lemma strip_by_elem (x : str) c : c ∈ Py.strip_by sp x → c ∈ x.
Proof.
  unfold Py.strip_by. intros Hc.
  destruct (rstrip_by_prefix (Py.lstrip_by sp x)) as [b Hb].
  destruct (lstrip_by_suffix x) as [a Ha].
  rewrite Ha, Hb. set_solver.
Qed.

End strip_facts.

Section split_facts.

Lemma split_nonempty (x : str) : Py.split nl x ≠ [].
Proof.
  destruct x as [|c x]; simpl; [done|].
  destruct (c =? nl); [done|]. by destruct (Py.split nl x).
Qed.

Lemma split_cons_nl (x : str) : Py.split nl (nl :: x) = [] :: Py.split nl x.
Proof. done. Qed.

Lemma split_cons_ne (c : char) (x : str) :
  c ≠ nl →
  Py.split nl (c :: x)
  = (c :: hd [] (Py.split nl x)) :: tl (Py.split nl x).
Proof.
  intros Hc%N.eqb_neq. simpl. rewrite Hc.
  pose proof (split_nonempty x). by destruct (Py.split nl x).
Qed.

Lemma split_no_nl (x l : str) : l ∈ Py.split nl x → nl ∉ l.
Proof.
  revert l. induction x as [|c x IH]; intros l.
  - simpl. intros ->%list_elem_of_singleton. apply not_elem_of_nil.
  - destruct (N.eq_dec c nl) as [->|Hc].
    + rewrite split_cons_nl. intros [->|Hl]%elem_of_cons; [|by apply IH].
      apply not_elem_of_nil.
    + rewrite split_cons_ne by done.
      pose proof (split_nonempty x) as Hne.
      destruct (Py.split nl x) as [|l0 ls]; [done|]. simpl.
      intros [->|Hl]%elem_of_cons.
      * intros [?|?]%elem_of_cons; [done|]. eapply IH; [left|done].
      * apply IH. by right.
Qed.

Lemma join_split (x : str) : Py.join [nl] (Py.split nl x) = x.
Proof.
  induction x as [|c x IH]; [done|].
  destruct (N.eq_dec c nl) as [->|Hc].
  - rewrite split_cons_nl.
    pose proof (split_nonempty x) as Hne.
    destruct (Py.split nl x) as [|l ls] eqn:E; [done|].
    change (Py.join [nl] ([] :: l :: ls)) with ([] ++ [nl] ++ Py.join [nl] (l :: ls)).
    by rewrite IH.
  - rewrite split_cons_ne by done.
    pose proof (split_nonempty x) as Hne.
    destruct (Py.split nl x) as [|l [|l' ls]] eqn:E; [done| |]; simpl in *.
    + by rewrite IH.
    + by rewrite <- IH.
Qed.

Lemma split_line (l : str) : nl ∉ l → Py.split nl l = [l].
Proof.
  induction l as [|c l IH]; [done|]. intros Hn.
  rewrite split_cons_ne by set_solver. rewrite IH by set_solver. done.
Qed.

Lemma split_app_nl (l x : str) :
  nl ∉ l → Py.split nl (l ++ nl :: x) = l :: Py.split nl x.
Proof.
  induction l as [|c l IH]; [done|]. intros Hn.
  change ((c :: l) ++ nl :: x) with (c :: (l ++ nl :: x)).
  rewrite split_cons_ne by set_solver. rewrite IH by set_solver. done.
Qed.

Lemma split_join (ls : list str) :
  ls ≠ [] → Forall (λ l, nl ∉ l) ls →
  Py.split nl (Py.join [nl] ls) = ls.
Proof.
  induction ls as [|l [|l' ls] IH]; [done| |].
  - intros _ [Hl _]%Forall_cons. simpl. by apply split_line.
  - intros _ [Hl Hls]%Forall_cons.
    change (Py.join [nl] (l :: l' :: ls)) with (l ++ nl :: Py.join [nl] (l' :: ls)).
    rewrite split_app_nl by done. by rewrite IH.
Qed.

Lemma split_snoc_nl (x : str) :
  Py.split nl (x ++ [nl]) = Py.split nl x ++ [[]].
Proof.
  induction x as [|c x IH]; [done|].
  change ((c :: x) ++ [nl]) with (c :: (x ++ [nl])).
  destruct (N.eq_dec c nl) as [->|Hc].
  - by rewrite !split_cons_nl, IH.
  - rewrite !split_cons_ne by done. rewrite IH.
    pose proof (split_nonempty x). by destruct (Py.split nl x).
Qed.

Lemma split_snoc_ne (x : str) (c : char) :
  c ≠ nl →
  ∃ ls l, Py.split nl x = ls ++ [l] ∧ Py.split nl (x ++ [c]) = ls ++ [l ++ [c]].
Proof.
  intros Hc. induction x as [|d x (ls & l & Hx & Hxc)].
  - exists [], []. split; [done|]. exact (split_cons_ne c [] Hc).
  - change ((d :: x) ++ [c]) with (d :: (x ++ [c])).
    destruct (N.eq_dec d nl) as [->|Hd].
    + rewrite !split_cons_nl, Hx, Hxc. by exists ([] :: ls), l.
    + rewrite !split_cons_ne by done. rewrite Hx, Hxc.
      destruct ls as [|l0 ls]; simpl.
      * by exists [], (d :: l).
      * by exists ((d :: l0) :: ls), l.
Qed.

End split_facts.

Section squeeze_facts.
Import pre_processing.

Lemma starts3_spec (x : str) :
  starts3 x = true ↔ ∃ post, x = nl :: nl :: nl :: post.
Proof. unfold starts3. by rewrite starts_with_spec. Qed.

Lemma starts3_false_ne (c : char) (x : str) : c ≠ nl → starts3 (c :: x) = false.
Proof.
  intros Hc. apply not_true_is_false. rewrite starts3_spec.
  intros [post [= -> _]]. done.
Qed.

Lemma squeeze_cons_ne (c : char) (x : str) :
  c ≠ nl → squeeze (c :: x) = c :: squeeze x.
Proof. intros Hc. simpl. fold (starts3 (c :: x)). by rewrite starts3_false_ne. Qed.

Lemma squeeze_cons (c : char) (x : str) :
  squeeze (c :: x) = if starts3 (c :: x) then squeeze x else c :: squeeze x.
Proof. done. Qed.

Lemma squeeze_run (r : nat) (x : str) :
  head x ≠ Some nl →
  squeeze (replicate r nl ++ x) = flush_run r ++ squeeze x.
Proof.
  intros Hx.
  assert (H1 : starts3 (nl :: x) = false).
  { apply not_true_is_false. rewrite starts3_spec. intros [post [= ->]]. done. }
  assert (H2 : starts3 (nl :: nl :: x) = false).
  { apply not_true_is_false. rewrite starts3_spec. intros [post [= ->]]. done. }
  induction r as [|r IH]; [done|].
  destruct r as [|[|k]].
  - cbn [replicate app]. by rewrite squeeze_cons, H1.
  - cbn [replicate app]. by rewrite !squeeze_cons, H2, H1.
  - change (replicate (S (S (S k))) nl ++ x)
      with (nl :: replicate (S (S k)) nl ++ x).
    rewrite squeeze_cons.
    replace (starts3 (nl :: replicate (S (S k)) nl ++ x)) with true
      by (symmetry; apply starts3_spec; by eexists).
    rewrite IH. by destruct k.
Qed.

(** The scan with its run counter computes the same string. *)
Lemma re_sub_newlines_from_squeeze (r : nat) (x : str) :
  re_sub_newlines_from r x = squeeze (replicate r nl ++ x).
Proof.
  revert r. induction x as [|c x IH]; intros r; simpl.
  - rewrite squeeze_run by done. by rewrite app_nil_r.
  - destruct (N.eqb_spec c nl) as [->|Hc].
    + rewrite IH. f_equal. change (nl :: x) with ([nl] ++ x).
      by rewrite app_assoc, <- replicate_S_end.
    + rewrite squeeze_run by (by intros [= ->]).
      by rewrite squeeze_cons_ne, (IH 0%nat).
Qed.

Lemma re_sub_newlines_squeeze (x : str) : re_sub_newlines x = squeeze x.
Proof. apply (re_sub_newlines_from_squeeze 0). Qed.

Lemma triple_free_cons (c : char) (x : str) :
  triple_free (c :: x) ↔ starts3 (c :: x) = false ∧ triple_free x.
Proof.
  split.
  - intros Hf. split.
    + apply not_true_is_false. intros [post Hp]%starts3_spec.
      by apply (Hf [] post).
    + intros pre post ->. by apply (Hf (c :: pre) post).
  - intros [Hs Hf] [|d pre] post Hx.
    + apply not_true_iff_false in Hs. apply Hs, starts3_spec. by exists post.
    + injection Hx as -> ->. by apply (Hf pre post).
Qed.

Lemma triple_free_nil : triple_free [].
Proof. intros [|??] post; done. Qed.

Lemma triple_free_app_l (x y : str) : triple_free (x ++ y) → triple_free x.
Proof.
  intros Hf pre post ->. apply (Hf pre (post ++ y)).
  by rewrite <- !app_assoc.
Qed.

Lemma triple_free_app_r (x y : str) : triple_free (x ++ y) → triple_free y.
Proof.
  intros Hf pre post ->. apply (Hf (x ++ pre) post).
  by rewrite <- !app_assoc.
Qed.

Lemma squeeze_triple_free_id (x : str) : triple_free x → squeeze x = x.
Proof.
  induction x as [|c x IH]; [done|].
  intros [Hs Hf]%triple_free_cons. rewrite squeeze_cons, Hs. by rewrite IH.
Qed.

Lemma squeeze_starts1 (x : str) :
  head (squeeze x) = Some nl → head x = Some nl.
Proof.
  destruct x as [|c x]; [done|]. rewrite squeeze_cons.
  destruct (starts3 (c :: x)) eqn:Hs; [|exact id].
  apply starts3_spec in Hs as [post [= -> _]]. done.
Qed.

Lemma squeeze_starts2 (x : str) :
  (∃ post, squeeze x = nl :: nl :: post) → ∃ post, x = nl :: nl :: post.
Proof.
  destruct x as [|c x]; [by intros [? ?]|]. rewrite squeeze_cons.
  destruct (starts3 (c :: x)) eqn:Hs.
  - apply starts3_spec in Hs as [post [= -> ->]]. eauto.
  - intros [post [= -> Hx]].
    pose proof (squeeze_starts1 x) as H1. rewrite Hx in H1.
    destruct x as [|d x]; [done|]. specialize (H1 eq_refl). injection H1 as ->. eauto.
Qed.

Lemma squeeze_triple_free (x : str) : triple_free (squeeze x).
Proof.
  induction x as [|c x IH]; [apply triple_free_nil|].
  rewrite squeeze_cons. destruct (starts3 (c :: x)) eqn:Hs; [done|].
  apply triple_free_cons. split; [|done].
  apply not_true_is_false. intros [post [= -> Hx]]%starts3_spec.
  destruct (squeeze_starts2 x) as [post' ->]; [eauto|].
  apply not_true_iff_false in Hs. apply Hs, starts3_spec. eauto.
Qed.

(** A run of three or more newlines with another character, or an end
    of the string, on each side becomes exactly two. *)
Lemma starts3_app (a y : str) :
  a ≠ [] → last a ≠ Some nl → starts3 (a ++ y) = starts3 a.
Proof.
  intros Ha Hl. destruct a as [|c [|d [|e [|f a]]]]; cbn [app];
    [done| | | |done].
  - rewrite !starts3_false_ne; [done| |]; by intros ->.
  - transitivity false; [|symmetry]; apply not_true_is_false;
      intros [post [= -> -> ?]]%starts3_spec; done.
  - transitivity false; [|symmetry]; apply not_true_is_false;
      intros [post [= -> -> -> ?]]%starts3_spec; done.
Qed.

Lemma squeeze_run_between (a b : str) (k : nat) :
  (3 ≤ k)%nat → last a ≠ Some nl → head b ≠ Some nl →
  squeeze (a ++ replicate k nl ++ b) = squeeze a ++ [nl; nl] ++ squeeze b.
Proof.
  intros Hk Ha Hb. induction a as [|c a IH].
  - cbn [app squeeze]. rewrite squeeze_run by done.
    unfold flush_run. by destruct (Nat.leb_spec 3 k); [|lia].
  - assert (Ha' : last a ≠ Some nl) by (by destruct a).
    assert (Hs : starts3 ((c :: a) ++ replicate k nl ++ b) = starts3 (c :: a))
      by (by apply starts3_app).
    cbn [app] in *. rewrite !squeeze_cons, Hs, (IH Ha').
    by destruct (starts3 (c :: a)).
Qed.

(** Squeezing keeps the lines: the first line is unchanged and every
    later line is one of the later lines it started from. *)
Lemma split_hd_squeeze (x : str) :
  hd [] (Py.split nl (squeeze x)) = hd [] (Py.split nl x).
Proof.
  induction x as [|c x IH]; [done|].
  destruct (N.eq_dec c nl) as [->|Hc].
  - rewrite squeeze_cons. destruct (starts3 (nl :: x)) eqn:Hs; [|done].
    apply starts3_spec in Hs as [post [= ->]]. by rewrite IH.
  - rewrite squeeze_cons_ne, !split_cons_ne by done. simpl. by rewrite IH.
Qed.

Lemma split_tl_squeeze (P : list N → Prop) (x : str) :
  Forall P (tl (Py.split nl x)) → Forall P (tl (Py.split nl (squeeze x))).
Proof.
  induction x as [|c x IH]; [done|].
  destruct (N.eq_dec c nl) as [->|Hc].
  - rewrite split_cons_nl. cbn [tl]. intros Hx.
    pose proof (split_nonempty x) as Hne.
    pose proof (split_nonempty (squeeze x)) as Hne'.
    pose proof (split_hd_squeeze x) as Hhd.
    destruct (Py.split nl x) as [|l ls] eqn:E; [done|].
    apply Forall_cons in Hx as [Hl Hls].
    rewrite squeeze_cons. destruct (starts3 (nl :: x)); [by apply IH|].
    rewrite split_cons_nl. cbn [tl].
    destruct (Py.split nl (squeeze x)) as [|l' ls']; [done|].
    simpl in Hhd. subst l'. apply Forall_cons. split; [done|]. by apply IH.
  - rewrite squeeze_cons_ne, !split_cons_ne by done. exact IH.
Qed.

Lemma split_lines_squeeze (P : list N → Prop) (x : str) :
  Forall P (Py.split nl x) → Forall P (Py.split nl (squeeze x)).
Proof.
  intros Hx.
  pose proof (split_nonempty x) as Hne.
  pose proof (split_nonempty (squeeze x)) as Hne'.
  pose proof (split_hd_squeeze x) as Hhd.
  pose proof (split_tl_squeeze P x) as Htl.
  destruct (Py.split nl x) as [|l ls]; [done|].
  destruct (Py.split nl (squeeze x)) as [|l' ls']; [done|].
  simpl in *. subst l'. apply Forall_cons in Hx as [Hl Hls].
  apply Forall_cons. auto.
Qed.

End squeeze_facts.

Section clean_text_facts.
Import pre_processing.
Context `{PyRuntime}.

Lemma isspace_nl : isspace nl = true.
Proof. by rewrite isspace_ascii. Qed.

(** Stripping a text whose lines are trimmed keeps them trimmed: only
    newlines are removed. *)
Lemma lstrip_lines (x : str) :
  Forall (trimmed isspace) (Py.split nl x) →
  Forall (trimmed isspace) (Py.split nl (Py.lstrip_by isspace x)).
Proof.
  induction x as [|c x IH]; [done|]. intros Hx. simpl.
  destruct (isspace c) eqn:Hc; [|done]. apply IH.
  destruct (N.eq_dec c nl) as [->|Hn].
  - rewrite split_cons_nl in Hx. by apply Forall_cons in Hx as [_ Hx].
  - rewrite split_cons_ne in Hx by done.
    apply Forall_cons in Hx as [[Hh _] _].
    specialize (Hh c eq_refl). congruence.
Qed.

Lemma rstrip_lines (x : str) :
  Forall (trimmed isspace) (Py.split nl x) →
  Forall (trimmed isspace) (Py.split nl (Py.rstrip_by isspace x)).
Proof.
  induction x as [|c x IH] using rev_ind; [done|]. intros Hx.
  rewrite rstrip_by_snoc. destruct (isspace c) eqn:Hc; [|done]. apply IH.
  destruct (N.eq_dec c nl) as [->|Hn].
  - rewrite split_snoc_nl in Hx. by apply Forall_app in Hx as [Hx _].
  - destruct (split_snoc_ne x c Hn) as (ls & l & Hsx & Hsxc).
    rewrite Hsxc in Hx. apply Forall_app in Hx as [_ Hx].
    apply Forall_cons in Hx as [[_ Hl] _].
    specialize (Hl c). rewrite last_snoc in Hl. specialize (Hl eq_refl).
    congruence.
Qed.

Lemma strip_lines (x : str) :
  Forall (trimmed isspace) (Py.split nl x) →
  Forall (trimmed isspace) (Py.split nl (Py.strip x)).
Proof. intros Hx. by apply rstrip_lines, lstrip_lines. Qed.

Lemma strip_triple_free (x : str) : triple_free x → triple_free (Py.strip x).
Proof.
  intros Hx. unfold Py.strip, Py.strip_by.
  destruct (lstrip_by_suffix isspace x) as [a Ha].
  destruct (rstrip_by_prefix isspace (Py.lstrip_by isspace x)) as [b Hb].
  rewrite Ha in Hx. apply triple_free_app_r in Hx.
  rewrite Hb in Hx. by apply triple_free_app_l in Hx.
Qed.

Lemma clean_text_cleaned (x : str) : cleaned (clean_text x).
Proof.
  unfold clean_text. case_bool_decide as Hx.
  - split; [|split].
    + apply Forall_cons. by split.
    + apply triple_free_nil.
    + by split.
  - rewrite re_sub_newlines_squeeze. split; [|split].
    + apply strip_lines, split_lines_squeeze.
      rewrite split_join.
      * apply Forall_fmap, Forall_forall. intros l _. apply strip_by_trimmed.
      * pose proof (split_nonempty x). by destruct (Py.split nl x).
      * apply Forall_fmap, Forall_forall. intros l Hl%split_no_nl.
        intros Hin. by apply Hl, (strip_by_elem isspace).
    + apply strip_triple_free, squeeze_triple_free.
    + apply strip_by_trimmed.
Qed.

Lemma cleaned_fixed (y : str) : cleaned y → clean_text y = y.
Proof.
  intros (Hlines & Hfree & Htrim). unfold clean_text.
  case_bool_decide as Hy; [done|].
  replace (map Py.strip (Py.split nl y)) with (Py.split nl y).
  - rewrite join_split, re_sub_newlines_squeeze.
    rewrite squeeze_triple_free_id by done. by apply trimmed_strip_by.
  - induction Hlines as [|l ls Hl _ IH]; [done|]. simpl.
    unfold Py.strip at 1. rewrite trimmed_strip_by by done. by f_equal.
Qed.

(** *** What cleaning does to the text it is given *)

Lemma lstrip_by_split (sp : N → bool) (x : str) :
  ∃ u, Forall (λ c, sp c = true) u ∧ x = u ++ Py.lstrip_by sp x.
Proof.
  induction x as [|c x (u & Hu & IH)]; [by exists []|]. cbn [Py.lstrip_by].
  destruct (sp c) eqn:Hc; [|by exists []].
  exists (c :: u). split; [by constructor|]. cbn [app]. by f_equal.
Qed.

Lemma rstrip_by_split (sp : N → bool) (x : str) :
  ∃ v, Forall (λ c, sp c = true) v ∧ x = Py.rstrip_by sp x ++ v.
Proof.
  unfold Py.rstrip_by.
  destruct (lstrip_by_split sp (rev x)) as (u & Hu & Hx).
  exists (rev u). split; [by apply Forall_rev|].
  by rewrite <- rev_app_distr, <- Hx, rev_involutive.
Qed.

Lemma lstrip_by_app_all (sp : N → bool) (u x : str) :
  Forall (λ c, sp c = true) u → Py.lstrip_by sp (u ++ x) = Py.lstrip_by sp x.
Proof. induction 1 as [|c u Hc _ IH]; [done|]. cbn [app Py.lstrip_by]. by rewrite Hc. Qed.

Lemma rstrip_by_app_all (sp : N → bool) (x v : str) :
  Forall (λ c, sp c = true) v → Py.rstrip_by sp (x ++ v) = Py.rstrip_by sp x.
Proof.
  intros Hv. unfold Py.rstrip_by.
  by rewrite rev_app_distr, lstrip_by_app_all by (by apply Forall_rev).
Qed.

(** Stripping finds the trimmed middle of a text padded with space. *)
Lemma strip_by_middle (sp : N → bool) (u m v : str) :
  Forall (λ c, sp c = true) u → Forall (λ c, sp c = true) v → trimmed sp m →
  Py.strip_by sp (u ++ m ++ v) = m.
Proof.
  intros Hu Hv [Hh Hl]. unfold Py.strip_by. rewrite lstrip_by_app_all by done.
  destruct m as [|c m].
  - cbn [app]. rewrite <- (app_nil_r v), lstrip_by_app_all by done. done.
  - cbn [app Py.lstrip_by]. rewrite (Hh c eq_refl).
    change (c :: m ++ v) with ((c :: m) ++ v).
    rewrite rstrip_by_app_all by done. by apply rstrip_by_id.
Qed.

(** In a text whose lines are trimmed the white space at either end is
    made of newlines. *)
Lemma trimmed_lines_lstrip (y : str) :
  Forall (trimmed isspace) (Py.split nl y) →
  ∃ i, y = replicate i nl ++ Py.lstrip_by isspace y.
Proof.
  induction y as [|c y IH]; intros Hy; [by exists 0%nat|].
  destruct (isspace c) eqn:Hc.
  - destruct (decide (c = nl)) as [->|Hne].
    + rewrite split_cons_nl in Hy. apply Forall_cons in Hy as [_ Hy].
      destruct (IH Hy) as [i Hi]. exists (S i).
      cbn [replicate app Py.lstrip_by]. rewrite isspace_nl. by f_equal.
    + rewrite split_cons_ne in Hy by done.
      apply Forall_cons in Hy as [[Hh _] _].
      specialize (Hh c eq_refl). congruence.
  - exists 0%nat. cbn [replicate app Py.lstrip_by]. by rewrite Hc.
Qed.

Lemma trimmed_lines_rstrip (y : str) :
  Forall (trimmed isspace) (Py.split nl y) →
  ∃ j, y = Py.rstrip_by isspace y ++ replicate j nl.
Proof.
  induction y as [|c y IH] using rev_ind; intros Hy; [by exists 0%nat|].
  rewrite rstrip_by_snoc. destruct (isspace c) eqn:Hc.
  - destruct (decide (c = nl)) as [->|Hne].
    + rewrite split_snoc_nl in Hy. apply Forall_app in Hy as [Hy _].
      destruct (IH Hy) as [j Hj]. exists (S j).
      rewrite replicate_S_end, app_assoc. by rewrite <- Hj.
    + destruct (split_snoc_ne y c Hne) as (ls & l & _ & Hs). rewrite Hs in Hy.
      apply Forall_app in Hy as [_ Hy].
      apply Forall_cons in Hy as [[_ Hl] _].
      specialize (Hl c (last_snoc _ _)). congruence.
  - exists 0%nat. by rewrite app_nil_r.
Qed.

Lemma trimmed_lines_strip (y : str) :
  Forall (trimmed isspace) (Py.split nl y) →
  ∃ i j, y = replicate i nl ++ Py.strip y ++ replicate j nl.
Proof.
  intros Hy. destruct (trimmed_lines_lstrip y Hy) as [i Hi].
  destruct (trimmed_lines_rstrip _ (lstrip_lines y Hy)) as [j Hj].
  exists i, j. unfold Py.strip, Py.strip_by. by rewrite <- Hj.
Qed.

Lemma squeeze_app (a x : str) :
  last a ≠ Some nl → squeeze (a ++ x) = squeeze a ++ squeeze x.
Proof.
  induction a as [|c a IH]; intros Ha; [done|].
  assert (Ha' : last a ≠ Some nl) by (by destruct a).
  assert (Hs : starts3 ((c :: a) ++ x) = starts3 (c :: a))
    by (by apply starts3_app).
  cbn [app] in *. rewrite !squeeze_cons, Hs, (IH Ha').
  by destruct (starts3 (c :: a)).
Qed.

Lemma last_squeeze (x : str) : last (squeeze x) = last x.
Proof.
  induction x as [|c x IH]; [done|]. rewrite squeeze_cons.
  destruct (starts3 (c :: x)) eqn:Hs.
  - apply starts3_spec in Hs as [post Hs]. injection Hs as -> ->. by rewrite IH.
  - destruct x as [|d x]; [done|].
    assert (∀ (y : list N) e, last (e :: y) ≠ None) as Hne.
    { induction y as [|f y IHy]; intros e; [done|].
      rewrite last_cons_cons. apply IHy. }
    destruct (squeeze (d :: x)) as [|e q] eqn:Hq.
    + symmetry in IH. by apply Hne in IH.
    + rewrite !last_cons_cons. exact IH.
Qed.

Lemma trimmed_squeeze (m : str) :
  trimmed isspace m → trimmed isspace (squeeze m).
Proof.
  intros [Hh Hl]. split; [|by rewrite last_squeeze].
  destruct m as [|c m]; [done|]. specialize (Hh c eq_refl).
  rewrite squeeze_cons_ne; [by intros ? [= <-]|].
  intros ->. by rewrite isspace_nl in Hh.
Qed.

Lemma flush_run_space (r : nat) : Forall (λ c, isspace c = true) (flush_run r).
Proof.
  unfold flush_run. destruct (3 <=? r)%nat.
  - repeat constructor; apply isspace_nl.
  - apply Forall_replicate, isspace_nl.
Qed.

Lemma squeeze_replicate (r : nat) : squeeze (replicate r nl) = flush_run r.
Proof.
  rewrite <- (app_nil_r (replicate r nl)), squeeze_run by done.
  apply app_nil_r.
Qed.

(** The substitution and the final strip, on a trimmed text between two
    runs of newlines. *)
Lemma strip_squeeze_run (i j : nat) (m : str) :
  trimmed isspace m →
  Py.strip (squeeze (replicate i nl ++ m ++ replicate j nl)) = squeeze m.
Proof.
  intros Hm. destruct m as [|c m].
  - cbn [app]. rewrite <- replicate_add, squeeze_replicate.
    rewrite <- (app_nil_r (flush_run _)).
    apply (strip_by_middle isspace _ [] []); [apply flush_run_space|done..].
  - pose proof Hm as [Hh Hl]. specialize (Hh c eq_refl).
    assert (c ≠ nl) as Hc by (intros ->; by rewrite isspace_nl in Hh).
    assert (last (c :: m) ≠ Some nl) as Hlast.
    { intros Hn. apply Hl in Hn. by rewrite isspace_nl in Hn. }
    rewrite squeeze_run by (cbn; congruence).
    rewrite squeeze_app, squeeze_replicate by done.
    apply strip_by_middle; [apply flush_run_space..|].
    by apply trimmed_squeeze.
Qed.

Lemma trimmed_lines_trimmed (x : str) :
  Forall (trimmed isspace) (Py.split nl (trimmed_lines x)).
Proof.
  unfold trimmed_lines. rewrite split_join.
  - apply Forall_fmap, Forall_forall. intros l _. apply strip_by_trimmed.
  - pose proof (split_nonempty x). by destruct (Py.split nl x).
  - apply Forall_fmap, Forall_forall. intros l Hl%split_no_nl.
    intros Hin. by apply Hl, (strip_by_elem isspace).
Qed.

Lemma clean_text_trimmed_lines (x : str) :
  clean_text x = Py.strip (squeeze (trimmed_lines x)).
Proof.
  unfold clean_text. case_bool_decide as Hx; [by subst|].
  by rewrite re_sub_newlines_squeeze.
Qed.

(** The final strip can be done before the substitution. *)
Lemma clean_text_squeeze_strip (x : str) :
  clean_text x = squeeze (Py.strip (trimmed_lines x)).
Proof.
  rewrite clean_text_trimmed_lines.
  destruct (trimmed_lines_strip _ (trimmed_lines_trimmed x)) as (i & j & Hy).
  transitivity
    (Py.strip (squeeze (replicate i nl ++ Py.strip (trimmed_lines x)
                        ++ replicate j nl))); [by rewrite <- Hy|].
  apply strip_squeeze_run, strip_by_trimmed.
Qed.

Lemma split_app_newline (a x : str) :
  Py.split nl (a ++ nl :: x) = Py.split nl a ++ Py.split nl x.
Proof.
  induction a as [|c a IH]; [done|]. cbn [app].
  destruct (decide (c = nl)) as [->|Hc].
  - by rewrite !split_cons_nl, IH.
  - rewrite !split_cons_ne, IH by done.
    pose proof (split_nonempty a). by destruct (Py.split nl a).
Qed.

Lemma join_nl_app (xs ys : list (list N)) :
  xs ≠ [] → ys ≠ [] →
  Py.join [nl] (xs ++ ys) = Py.join [nl] xs ++ [nl] ++ Py.join [nl] ys.
Proof.
  intros Hxs Hys. induction xs as [|l xs IH]; [done|].
  destruct xs as [|l' xs].
  - by destruct ys.
  - change (Py.join [nl] ((l :: l' :: xs) ++ ys))
      with (l ++ [nl] ++ Py.join [nl] ((l' :: xs) ++ ys)).
    rewrite IH by done.
    change (Py.join [nl] (l :: l' :: xs))
      with (l ++ [nl] ++ Py.join [nl] (l' :: xs)).
    by rewrite <- !app_assoc.
Qed.

Lemma trimmed_lines_newline (a x : str) :
  trimmed_lines (a ++ nl :: x) = trimmed_lines a ++ nl :: trimmed_lines x.
Proof.
  unfold trimmed_lines. rewrite split_app_newline, map_app, join_nl_app; [done|..].
  - pose proof (split_nonempty a). by destruct (Py.split nl a).
  - pose proof (split_nonempty x). by destruct (Py.split nl x).
Qed.

Lemma trimmed_lines_replicate (k : nat) (x : str) :
  trimmed_lines (replicate k nl ++ x) = replicate k nl ++ trimmed_lines x.
Proof.
  induction k as [|k IH]; [done|]. cbn [replicate app].
  rewrite <- IH. exact (trimmed_lines_newline [] (replicate k nl ++ x)).
Qed.

Lemma trimmed_lines_run (a b : str) (k : nat) :
  trimmed_lines (a ++ replicate (S k) nl ++ b)
  = trimmed_lines a ++ replicate (S k) nl ++ trimmed_lines b.
Proof.
  cbn [replicate app]. by rewrite trimmed_lines_newline, trimmed_lines_replicate.
Qed.

Lemma visible_app (x y : str) : visible (x ++ y) = visible x ++ visible y.
Proof. apply List.filter_app. Qed.

Lemma visible_blank (u : str) :
  Forall (λ c, isspace c = true) u → visible u = [].
Proof.
  induction 1 as [|c u Hc _ IH]; [done|].
  unfold visible in *. cbn [List.filter]. by rewrite Hc.
Qed.

Lemma visible_strip (x : str) : visible (Py.strip x) = visible x.
Proof.
  destruct (lstrip_by_split isspace x) as (u & Hu & Hx).
  destruct (rstrip_by_split isspace (Py.lstrip_by isspace x)) as (v & Hv & Hy).
  assert (x = u ++ Py.strip x ++ v) as Hd.
  { unfold Py.strip, Py.strip_by. by rewrite <- Hy. }
  transitivity (visible (u ++ Py.strip x ++ v)); [|by rewrite <- Hd].
  rewrite !visible_app, (visible_blank u), (visible_blank v) by done.
  by rewrite app_nil_r.
Qed.

Lemma visible_squeeze (x : str) : visible (squeeze x) = visible x.
Proof.
  induction x as [|c x IH]; [done|]. rewrite squeeze_cons.
  destruct (starts3 (c :: x)) eqn:Hs.
  - apply starts3_spec in Hs as [post Hs]. injection Hs as -> ->.
    rewrite IH. unfold visible. cbn [List.filter]. by rewrite isspace_nl.
  - unfold visible in *. cbn [List.filter]. by rewrite IH.
Qed.

Lemma visible_join_strip (ls : list (list N)) :
  visible (Py.join [nl] (map Py.strip ls)) = visible (Py.join [nl] ls).
Proof.
  induction ls as [|l ls IH]; [done|].
  destruct ls as [|l' ls]; [apply visible_strip|].
  change (visible (Py.strip l ++ [nl] ++ Py.join [nl] (map Py.strip (l' :: ls)))
          = visible (l ++ [nl] ++ Py.join [nl] (l' :: ls))).
  by rewrite !visible_app, IH, visible_strip.
Qed.

Lemma visible_trimmed_lines (x : str) : visible (trimmed_lines x) = visible x.
Proof. unfold trimmed_lines. by rewrite visible_join_strip, join_split. Qed.

(** Cleaning removes white space only: the other characters are kept,
    in their order. *)
Lemma visible_clean_text (x : str) : visible (clean_text x) = visible x.
Proof.
  rewrite clean_text_trimmed_lines, visible_strip, visible_squeeze.
  apply visible_trimmed_lines.
Qed.

Lemma strip_trimmed_lines_nonblank (a : str) :
  (∃ c, c ∈ a ∧ isspace c = false) → Py.strip (trimmed_lines a) ≠ [].
Proof.
  intros (c & Hin & Hc) He.
  assert (c ∈ visible a) as Hv.
  { apply list_elem_of_In, filter_In. split; [by apply list_elem_of_In|].
    by rewrite Hc. }
  rewrite <- visible_trimmed_lines, <- visible_strip, He in Hv.
  by apply elem_of_nil in Hv.
Qed.

(** A run of three or more newlines between two texts that are not
    blank comes out as exactly two, whatever white space surrounds it. *)
Lemma clean_text_run (a b : str) (k : nat) :
  (3 ≤ k)%nat →
  (∃ c, c ∈ a ∧ isspace c = false) → (∃ c, c ∈ b ∧ isspace c = false) →
  clean_text (a ++ replicate k nl ++ b)
  = clean_text a ++ [nl; nl] ++ clean_text b.
Proof.
  intros Hk Ha Hb. destruct k as [|k]; [lia|].
  rewrite !clean_text_squeeze_strip, trimmed_lines_run.
  destruct (trimmed_lines_strip _ (trimmed_lines_trimmed a)) as (i & j & Hya).
  destruct (trimmed_lines_strip _ (trimmed_lines_trimmed b)) as (i' & j' & Hyb).
  pose proof (strip_by_trimmed isspace (trimmed_lines a)) as [Hah Hal].
  pose proof (strip_by_trimmed isspace (trimmed_lines b)) as [Hbh Hbl].
  pose proof (strip_trimmed_lines_nonblank a Ha) as HA.
  pose proof (strip_trimmed_lines_nonblank b Hb) as HB.
  change (Py.strip_by isspace) with Py.strip in *.
  set (A := Py.strip (trimmed_lines a)) in *.
  set (B := Py.strip (trimmed_lines b)) in *.
  rewrite Hya, Hyb.
  replace ((replicate i nl ++ A ++ replicate j nl) ++ replicate (S k) nl
           ++ replicate i' nl ++ B ++ replicate j' nl)
    with (replicate i nl ++ (A ++ replicate (j + S k + i') nl ++ B)
          ++ replicate j' nl)
    by (by rewrite !replicate_add, <- !app_assoc).
  assert (last A ≠ Some nl) as HlA.
  { intros Hn. apply Hal in Hn. by rewrite isspace_nl in Hn. }
  assert (head B ≠ Some nl) as HhB.
  { intros Hn. apply Hbh in Hn. by rewrite isspace_nl in Hn. }
  unfold Py.strip at 1. rewrite strip_by_middle.
  - apply squeeze_run_between; [lia|done..].
  - apply Forall_replicate, isspace_nl.
  - apply Forall_replicate, isspace_nl.
  - split; intros c Hc.
    + destruct A as [|d A']; [done|]. by apply Hah.
    + destruct B as [|d B']; [done|]. rewrite app_assoc, last_app_cons in Hc.
      by apply Hbl.
Qed.

(** C4: [clean_text] is idempotent; in its output every line is
    trimmed, no three newlines follow one another, and neither end is
    white space.  A run of three or more newlines of the input comes out
    as exactly two: between two texts that are not blank, whatever white
    space surrounds the run, [clean_text] returns the two cleaned texts
    with two newlines between them, and the substitution it applies turns
    such a run, bounded by another character or an end of the text, into
    two.  Only white space is removed, and a text that is already in the
    cleaned form is returned as it is. *)
Theorem clean_text_spec (x : str) :
  clean_text (clean_text x) = clean_text x
  ∧ Forall (λ line, Py.strip line = line) (Py.split nl (clean_text x))
  ∧ (∀ pre post, clean_text x ≠ pre ++ [nl; nl; nl] ++ post)
  ∧ Py.strip (clean_text x) = clean_text x
  ∧ (∀ c, head (clean_text x) = Some c → isspace c = false)
  ∧ (∀ c, last (clean_text x) = Some c → isspace c = false)
  ∧ (∀ a b k, (3 ≤ k)%nat → last a ≠ Some nl → head b ≠ Some nl →
       re_sub_newlines (a ++ replicate k nl ++ b)
       = re_sub_newlines a ++ [nl; nl] ++ re_sub_newlines b)
  ∧ (∀ a b k, (3 ≤ k)%nat →
       (∃ c, c ∈ a ∧ isspace c = false) → (∃ c, c ∈ b ∧ isspace c = false) →
       clean_text (a ++ replicate k nl ++ b)
       = clean_text a ++ [nl; nl] ++ clean_text b)
  ∧ List.filter (λ c, negb (isspace c)) (clean_text x)
    = List.filter (λ c, negb (isspace c)) x
  ∧ (Forall (λ line, Py.strip line = line) (Py.split nl x) →
     (∀ pre post, x ≠ pre ++ [nl; nl; nl] ++ post) →
     Py.strip x = x →
     clean_text x = x).
Proof.
  destruct (clean_text_cleaned x) as (Hlines & Hfree & Htrim).
  split; [by apply cleaned_fixed|].
  split.
  { eapply Forall_impl; [exact Hlines|]. intros l Hl.
    by apply trimmed_strip_by. }
  split; [exact Hfree|].
  split; [by apply trimmed_strip_by|].
  split; [apply Htrim|]. split; [apply Htrim|].
  split.
  { intros a b k Hk Ha Hb. rewrite !re_sub_newlines_squeeze.
    by apply squeeze_run_between. }
  split; [apply clean_text_run|].
  split; [apply visible_clean_text|].
  intros Hl Hf Hs. apply cleaned_fixed. split; [|split; [exact Hf|]].
  - eapply Forall_impl; [exact Hl|]. intros l <-. apply strip_by_trimmed.
  - rewrite <- Hs. apply strip_by_trimmed.
Qed.

End clean_text_facts.

(** ** pre_processing.py: tag normalisation *)

Section tag_ascii_facts.
Import pre_processing.

Lemma lstrip_by_ext (sp1 sp2 : N → bool) (x : str) :
  Forall (λ c, sp1 c = sp2 c) x → Py.lstrip_by sp1 x = Py.lstrip_by sp2 x.
Proof.
  induction 1 as [|c x Hc _ IH]; simpl; [done|]. by rewrite Hc, IH.
Qed.

Lemma strip_by_ext (sp1 sp2 : N → bool) (x : str) :
  Forall (λ c, sp1 c = sp2 c) x → Py.strip_by sp1 x = Py.strip_by sp2 x.
Proof.
  intros Hx. unfold Py.strip_by, Py.rstrip_by.
  rewrite (lstrip_by_ext sp1 sp2 x) by done. f_equal.
  apply lstrip_by_ext, Forall_rev.
  destruct (lstrip_by_suffix sp2 x) as [a Ha].
  rewrite Ha in Hx. by apply Forall_app in Hx as [_ Hx].
Qed.

Lemma strip_ascii `{PyRuntime} (x : str) :
  is_ascii x = true → Py.strip x = @Py.strip ascii_runtime x.
Proof.
  intros Hx%is_ascii_Forall. apply strip_by_ext.
  eapply Forall_impl; [exact Hx|]. intros c Hc. cbv beta in Hc.
  rewrite isspace_ascii by done. symmetry. by apply (@isspace_ascii ascii_runtime).
Qed.

Lemma is_ascii_strip_by (sp : N → bool) (x : str) :
  is_ascii x = true → is_ascii (Py.strip_by sp x) = true.
Proof.
  rewrite !is_ascii_Forall, !Forall_forall.
  intros Hx c Hc. by apply Hx, (strip_by_elem sp).
Qed.

Lemma is_ascii_title (x : str) :
  is_ascii x = true → is_ascii (ascii_title x) = true.
Proof.
  unfold ascii_title. generalize false.
  induction x as [|c x IH]; intros b; simpl; [done|].
  intros [Hc Hx]%andb_true_iff. rewrite IH by done. rewrite andb_true_r.
  apply N.ltb_lt in Hc. apply N.ltb_lt.
  unfold ascii_lower, ascii_upper, in_range.
  destruct b; destruct (N.leb_spec 65 c); destruct (N.leb_spec c 90);
    destruct (N.leb_spec 97 c); destruct (N.leb_spec c 122); cbn [andb]; lia.
Qed.

Lemma normal_form_ascii `{PyRuntime} (x : str) :
  is_ascii x = true →
  normal_form x = @normal_form ascii_runtime x
  ∧ is_ascii (normal_form x) = true.
Proof.
  intros Hx. unfold normal_form. rewrite strip_ascii by done.
  rewrite title_ascii by by apply is_ascii_strip_by.
  split; [done|]. by apply is_ascii_title, is_ascii_strip_by.
Qed.

Lemma merge_loop_ascii `{PyRuntime} (rules : list (list N * list (list N))) (t : str) :
  forallb rule_is_ascii rules = true → is_ascii t = true →
  merge_loop rules t = @merge_loop ascii_runtime rules t.
Proof.
  intros Hrules Ht. induction rules as [|[main_tag synonyms] rest IH];
    simpl; [done|].
  simpl in Hrules.
  apply andb_true_iff in Hrules as [[Hm Hs]%andb_true_iff Hrest].
  simpl in Hm, Hs. rewrite IH by done.
  rewrite (lower_ascii t), (lower_ascii main_tag) by done.
  replace (existsb (λ syn, Py.contains (lower syn) (map ascii_lower t)) synonyms)
    with (existsb (λ syn, Py.contains (map ascii_lower syn) (map ascii_lower t))
            synonyms); [done|].
  clear -Hs. induction synonyms as [|syn syns IH]; simpl; [done|].
  simpl in Hs. apply andb_true_iff in Hs as [Hsyn Hsyns].
  by rewrite IH, (lower_ascii syn).
Qed.

Lemma merge_rules_ascii : forallb rule_is_ascii merge_rules = true.
Proof. by vm_compute. Qed.

(** The two outcomes of [normalize_and_merge_tags] that do not look at
    the tags found so far. *)
Lemma normalize_merged `{PyRuntime} self new_tag main_tag :
  merge_loop merge_rules (normal_form new_tag) = Some main_tag →
  normalize_and_merge_tags self new_tag
  = (main_tag,
     mkCleaner (discovered_tags self) (max_tags self)
       (<[normal_form new_tag := main_tag]> (tag_synonyms self))).
Proof.
  intros Hm. unfold normalize_and_merge_tags. fold (normal_form new_tag).
  by rewrite Hm.
Qed.

Lemma normalize_kept `{PyRuntime} self new_tag :
  merge_loop merge_rules (normal_form new_tag) = None →
  (size (discovered_tags self) < max_tags self)%nat →
  normalize_and_merge_tags self new_tag = (normal_form new_tag, self).
Proof.
  intros Hm Hsize. unfold normalize_and_merge_tags. fold (normal_form new_tag).
  rewrite Hm. by apply Nat.ltb_lt in Hsize as ->.
Qed.

(** On an ASCII tag that merges, or while the cap is not reached, the
    call does the same under every runtime. *)
Lemma normalize_ascii `{PyRuntime} self new_tag :
  is_ascii new_tag = true →
  @merge_loop ascii_runtime merge_rules (@normal_form ascii_runtime new_tag) ≠ None
  ∨ (size (discovered_tags self) < max_tags self)%nat →
  normalize_and_merge_tags self new_tag
  = @normalize_and_merge_tags ascii_runtime self new_tag.
Proof.
  intros Ha Hcase. destruct (normal_form_ascii new_tag Ha) as [Hn Hna].
  pose proof (merge_loop_ascii merge_rules (normal_form new_tag)
                merge_rules_ascii Hna) as Hm.
  rewrite Hn in Hm at 2.
  destruct (@merge_loop ascii_runtime merge_rules
              (@normal_form ascii_runtime new_tag)) as [main_tag|] eqn:E.
  - rewrite (normalize_merged _ _ main_tag) by done.
    rewrite (@normalize_merged ascii_runtime _ _ main_tag) by done.
    by rewrite Hn.
  - destruct Hcase as [|Hsize]; [done|].
    rewrite normalize_kept by done.
    rewrite (@normalize_kept ascii_runtime) by done. by rewrite Hn.
Qed.

End tag_ascii_facts.

Section tag_facts.
Import pre_processing.

(** A raw ASCII tag on which a merge rule fires, under any runtime. *)
Lemma normalize_merged_ascii `{PyRuntime} self new_tag main_tag :
  is_ascii new_tag = true →
  @merge_loop ascii_runtime merge_rules (@normal_form ascii_runtime new_tag)
  = Some main_tag →
  normalize_and_merge_tags self new_tag
  = (main_tag,
     mkCleaner (discovered_tags self) (max_tags self)
       (<[@normal_form ascii_runtime new_tag := main_tag]> (tag_synonyms self))).
Proof.
  intros Ha Hm. rewrite normalize_ascii; [|done|left; congruence].
  by apply (@normalize_merged ascii_runtime).
Qed.

(** C8: from any state, "Budgeting" is normalised to "Financial
    Planning", then "Budget" is too, and afterwards [tag_synonyms] maps
    both "Budgeting" and "Budget" to "Financial Planning". *)
Theorem budgeting_then_budget `{PyRuntime} (self : LinkedInPostCleaner) :
  let r1 := normalize_and_merge_tags self (lit "Budgeting") in
  let r2 := normalize_and_merge_tags r1.2 (lit "Budget") in
  r1.1 = lit "Financial Planning"
  ∧ r2.1 = lit "Financial Planning"
  ∧ tag_synonyms r2.2 !! lit "Budgeting" = Some (lit "Financial Planning")
  ∧ tag_synonyms r2.2 !! lit "Budget" = Some (lit "Financial Planning").
Proof.
  intros r1 r2. subst r1 r2.
  rewrite (normalize_merged_ascii self (lit "Budgeting") financial_planning)
    by by vm_compute.
  cbn [fst snd].
  rewrite (normalize_merged_ascii _ (lit "Budget") financial_planning)
    by by vm_compute.
  cbn [fst snd tag_synonyms].
  change (@normal_form ascii_runtime (lit "Budgeting")) with (lit "Budgeting").
  change (@normal_form ascii_runtime (lit "Budget")) with (lit "Budget").
  split; [done|]. split; [done|]. split.
  - rewrite lookup_insert_ne by (by vm_compute). apply lookup_insert_eq.
  - apply lookup_insert_eq.
Qed.

Lemma merge_rules_keys : map fst merge_rules = canonical_tags.
Proof. reflexivity. Qed.

Lemma merge_loop_key `{PyRuntime} rules new_tag main_tag :
  merge_loop rules new_tag = Some main_tag → main_tag ∈ map fst rules.
Proof.
  induction rules as [|[m syns] rest IH]; simpl; [done|].
  destruct (_ || _); [intros [= <-]; left|].
  destruct (_ || _); [intros [= <-]; left|].
  intros Hm. right. by apply IH.
Qed.

Lemma normalize_synonyms_canonical `{PyRuntime} self new_tag :
  synonyms_canonical self →
  synonyms_canonical (normalize_and_merge_tags self new_tag).2.
Proof.
  intros Hinv. unfold normalize_and_merge_tags.
  destruct (merge_loop merge_rules _) as [main_tag|] eqn:Hm.
  - intros k v. cbn [snd tag_synonyms]. rewrite lookup_insert.
    case_decide; [|by apply Hinv].
    intros [= <-]. rewrite <- merge_rules_keys. by eapply merge_loop_key.
  - by destruct (_ <? _)%nat.
Qed.

Lemma extract_tags_fallback_synonyms `{PyRuntime} self text :
  tag_synonyms (extract_tags_fallback self text).2
  = tag_synonyms (normalize_and_merge_tags self (best_category (lower text))).2.
Proof.
  unfold extract_tags_fallback. by destruct (normalize_and_merge_tags _ _).
Qed.

Lemma discover_synonyms `{PyRuntime} self text content :
  tag_synonyms (discover_tags_from_text self text (Some content)).2
  = tag_synonyms (normalize_and_merge_tags self (Py.strip content)).2.
Proof.
  unfold discover_tags_from_text. by destruct (normalize_and_merge_tags _ _).
Qed.

Lemma step_synonyms_canonical `{PyRuntime} self c :
  synonyms_canonical self → synonyms_canonical (step self c).
Proof.
  intros Hinv. destruct c as [new_tag|text [content|]|text]; cbn [step].
  - by apply normalize_synonyms_canonical.
  - unfold synonyms_canonical. rewrite discover_synonyms.
    by apply normalize_synonyms_canonical.
  - unfold synonyms_canonical, discover_tags_from_text.
    rewrite extract_tags_fallback_synonyms.
    by apply normalize_synonyms_canonical.
  - unfold synonyms_canonical. rewrite extract_tags_fallback_synonyms.
    by apply normalize_synonyms_canonical.
Qed.

Lemma run_synonyms_canonical `{PyRuntime} self calls :
  synonyms_canonical self → synonyms_canonical (run self calls).
Proof.
  revert self. induction calls as [|c calls IH]; intros self Hinv; [done|].
  simpl. by apply IH, step_synonyms_canonical.
Qed.

(** C9: after any sequence of calls on a fresh object, every value
    stored in [tag_synonyms] is one of the twelve keys of [merge_rules]. *)
Theorem tag_synonyms_values_canonical `{PyRuntime} (calls : list call)
    (k v : list N) :
  tag_synonyms (run init calls) !! k = Some v →
  v ∈ map lit ["Financial Planning"; "Investment"; "Cryptocurrency";
               "Career Development"; "Entrepreneurship"; "Technology";
               "Marketing"; "Personal Growth"; "Leadership"; "Networking";
               "Industry Insights"; "General"]%string.
Proof.
  apply (run_synonyms_canonical init calls). intros k' v' Hk.
  cbn [init tag_synonyms] in Hk. by rewrite lookup_empty in Hk.
Qed.

(** After one call on "Budgeting" the recorded value is a key of
    [merge_rules]. *)
Lemma tag_synonyms_values_canonical_witness :
  tag_synonyms (@run ascii_runtime init [Normalize (lit "Budgeting")])
    !! lit "Budgeting" = Some (lit "Financial Planning")
  ∧ lit "Financial Planning"
    ∈ map lit ["Financial Planning"; "Investment"; "Cryptocurrency";
               "Career Development"; "Entrepreneurship"; "Technology";
               "Marketing"; "Personal Growth"; "Leadership"; "Networking";
               "Industry Insights"; "General"]%string.
Proof.
  assert (Hk : tag_synonyms (@run ascii_runtime init [Normalize (lit "Budgeting")])
                 !! lit "Budgeting" = Some (lit "Financial Planning")).
  { apply lookup_insert_eq. }
  split; [exact Hk|].
  exact (@tag_synonyms_values_canonical ascii_runtime
           [Normalize (lit "Budgeting")] _ _ Hk).
Defined.

End tag_facts.

Section fallback_facts.
Import pre_processing.

Lemma score_nil (t : str) : score t [] = 0%nat.
Proof. done. Qed.

Lemma score_cons (t keyword : str) (keywords : list (list N)) :
  (occurs_in keyword t → score t (keyword :: keywords) = S (score t keywords))
  ∧ (¬ occurs_in keyword t → score t (keyword :: keywords) = score t keywords).
Proof.
  unfold score, occurs_in. rewrite <- contains_spec. simpl.
  destruct (Py.contains keyword t); split; try done; by intros [].
Qed.

(** The loop keeps the first entry that reaches the highest score above
    the score it started with, or else what it started with. *)
Lemma best_loop_spec (categories : list (list N * list (list N))) (t : str)
    (best_match : list N) (max_score : nat) :
  (Forall (λ entry, score t entry.2 ≤ max_score)%nat categories
   ∧ best_loop categories t best_match max_score = (best_match, max_score))
  ∨ ∃ i entry, categories !! i = Some entry
      ∧ best_loop categories t best_match max_score
        = (entry.1, score t entry.2)
      ∧ (max_score < score t entry.2)%nat
      ∧ (∀ j earlier, (j < i)%nat → categories !! j = Some earlier →
           score t earlier.2 < score t entry.2)%nat
      ∧ Forall (λ other, score t other.2 ≤ score t entry.2)%nat categories.
Proof.
  revert best_match max_score.
  induction categories as [|[category keywords] rest IH];
    intros best_match max_score.
  - left. by split.
  - cbn [best_loop]. cbv zeta.
    destruct (Nat.ltb_spec max_score (score t keywords)) as [Hlt|Hge].
    + right.
      destruct (IH category (score t keywords))
        as [[Hall ->]|(i & entry & Hi & -> & Hm & Hearlier & Hall)].
      * exists 0%nat, (category, keywords). cbn [fst snd].
        split; [done|]. split; [done|]. split; [done|].
        split; [intros j ??; lia|].
        apply Forall_cons. split; [done|exact Hall].
      * exists (S i), entry.
        split; [done|]. split; [done|]. split; [lia|]. split.
        -- intros [|j] earlier Hj; simpl.
           ++ intros [= <-]. done.
           ++ apply Hearlier. lia.
        -- apply Forall_cons. cbn [snd]. split; [lia|done].
    + destruct (IH best_match max_score)
        as [[Hall ->]|(i & entry & Hi & -> & Hm & Hearlier & Hall)].
      * left. split; [|done]. apply Forall_cons. split; [done|exact Hall].
      * right. exists (S i), entry.
        split; [done|]. split; [done|]. split; [done|]. split.
        -- intros [|j] earlier Hj; simpl.
           ++ intros [= <-]. cbn [snd]. lia.
           ++ apply Hearlier. lia.
        -- apply Forall_cons. cbn [snd]. split; [lia|done].
Qed.

(** C6: there are fifteen categories; a category's score is the number
    of its keywords that occur in the lower-cased text; the chosen
    category is "Business" when every score is 0, and otherwise the first
    category in the table's order whose score is the highest; the result
    is the chosen category passed through [normalize_and_merge_tags],
    which is then added to the discovered tags. *)
Theorem extract_tags_fallback_spec `{PyRuntime}
    (self : LinkedInPostCleaner) (text : str) :
  let text_lower := lower text in
  let sc (entry : list N * list (list N)) := score text_lower entry.2 in
  let best_match := best_category text_lower in
  List.length main_categories = 15%nat
  ∧ (∀ keywords, score text_lower [] = 0%nat
       ∧ ∀ keyword,
           (occurs_in keyword text_lower →
              score text_lower (keyword :: keywords)
              = S (score text_lower keywords))
           ∧ (¬ occurs_in keyword text_lower →
                score text_lower (keyword :: keywords)
                = score text_lower keywords))
  ∧ ((Forall (λ entry, sc entry = 0%nat) main_categories
      ∧ best_match = lit "Business")
     ∨ ∃ i entry, main_categories !! i = Some entry
         ∧ best_match = entry.1
         ∧ (0 < sc entry)%nat
         ∧ (∀ j earlier, (j < i)%nat → main_categories !! j = Some earlier →
              sc earlier < sc entry)%nat
         ∧ Forall (λ other, sc other ≤ sc entry)%nat main_categories)
  ∧ extract_tags_fallback self text
    = ([(normalize_and_merge_tags self best_match).1],
       add_tag (normalize_and_merge_tags self best_match).2
               (normalize_and_merge_tags self best_match).1).
Proof.
  intros text_lower sc best_match.
  split; [done|]. split.
  { intros keywords. split; [done|]. intros keyword. apply score_cons. }
  split.
  - unfold best_match, best_category.
    destruct (best_loop_spec main_categories text_lower (lit "Business") 0)
      as [[Hall ->]|(i & entry & Hi & -> & Hm & Hearlier & Hall)].
    + left. split; [|done].
      eapply Forall_impl; [exact Hall|]. intros entry. cbv beta. unfold sc. lia.
    + right. exists i, entry. by repeat split.
  - unfold extract_tags_fallback. fold text_lower. fold best_match.
    by destruct (normalize_and_merge_tags self best_match).
Qed.

Lemma best_category_default (t : str) :
  (∀ category keywords,
     (category, keywords) ∈ main_categories → score t keywords = 0%nat) →
  best_category t = lit "Business".
Proof.
  intros Hzero. unfold best_category.
  destruct (best_loop_spec main_categories t (lit "Business") 0)
    as [[_ ->]|(i & [category keywords] & Hi & _ & Hm & _)]; [done|].
  apply list_elem_of_lookup_2 in Hi. apply Hzero in Hi. simpl in Hm. lia.
Qed.

(** C10: when no keyword of any category occurs in the lower-cased
    text, [extract_tags_fallback] does not yield "Business": the default
    is merged into "Entrepreneurship", which is returned, recorded as the
    synonym of "Business" and added to the discovered tags. *)
Theorem fallback_default_is_entrepreneurship `{PyRuntime}
    (self : LinkedInPostCleaner) (text : str) :
  (∀ category keywords,
     (category, keywords) ∈ main_categories →
     score (lower text) keywords = 0%nat) →
  extract_tags_fallback self text
  = ([lit "Entrepreneurship"],
     mkCleaner ({[lit "Entrepreneurship"]} ∪ discovered_tags self)
       (max_tags self)
       (<[lit "Business" := lit "Entrepreneurship"]> (tag_synonyms self)))
  ∧ (extract_tags_fallback self text).1 ≠ [lit "Business"].
Proof.
  intros Hzero.
  assert (Hres : extract_tags_fallback self text
    = ([lit "Entrepreneurship"],
       mkCleaner ({[lit "Entrepreneurship"]} ∪ discovered_tags self)
         (max_tags self)
         (<[lit "Business" := lit "Entrepreneurship"]> (tag_synonyms self)))).
  { unfold extract_tags_fallback.
    rewrite (best_category_default _ Hzero).
    rewrite (normalize_merged_ascii self (lit "Business") entrepreneurship)
      by by vm_compute.
    done. }
  split; [exact Hres|]. rewrite Hres. by vm_compute.
Qed.

(** No keyword of any category occurs in "zzz". *)
Lemma zzz_scores_zero category keywords :
  (category, keywords) ∈ main_categories →
  score (@lower ascii_runtime (lit "zzz")) keywords = 0%nat.
Proof.
  assert (Hall : Forall (λ entry : list N * list (list N),
                   score (@lower ascii_runtime (lit "zzz")) entry.2 = 0%nat)
                 main_categories).
  { apply (bool_decide_unpack _). by vm_compute. }
  intros Hin. by apply (proj1 (Forall_forall _ _) Hall (category, keywords)).
Qed.

(** The fallback on the text "zzz", on a fresh object. *)
Lemma fallback_default_is_entrepreneurship_witness :
  (∀ category keywords,
     (category, keywords) ∈ main_categories →
     score (@lower ascii_runtime (lit "zzz")) keywords = 0%nat)
  ∧ @extract_tags_fallback ascii_runtime init (lit "zzz")
    = ([lit "Entrepreneurship"],
       mkCleaner ({[lit "Entrepreneurship"]} ∪ discovered_tags init)
         (max_tags init)
         (<[lit "Business" := lit "Entrepreneurship"]> (tag_synonyms init)))
  ∧ (@extract_tags_fallback ascii_runtime init (lit "zzz")).1
    ≠ [lit "Business"].
Proof.
  split; [exact zzz_scores_zero|].
  exact (@fallback_default_is_entrepreneurship ascii_runtime init (lit "zzz")
           zzz_scores_zero).
Defined.

End fallback_facts.

Section cap_facts.
Import pre_processing.

Lemma discover_ascii `{PyRuntime} self text content :
  is_ascii content = true →
  @merge_loop ascii_runtime merge_rules
    (@normal_form ascii_runtime (@Py.strip ascii_runtime content)) ≠ None
  ∨ (size (discovered_tags self) < max_tags self)%nat →
  discover_tags_from_text self text (Some content)
  = @discover_tags_from_text ascii_runtime self text (Some content).
Proof.
  intros Ha Hcase. unfold discover_tags_from_text.
  rewrite strip_ascii by done.
  rewrite normalize_ascii; [done| |done].
  by apply is_ascii_strip_by.
Qed.

Lemma run_order_free `{PyRuntime} self text contents :
  order_free self text contents = true →
  run self (map (λ content, Discover text (Some content)) contents)
  = @run ascii_runtime self
      (map (λ content, Discover text (Some content)) contents).
Proof.
  revert self. induction contents as [|content rest IH]; intros self; [done|].
  cbn [order_free]. intros [[Ha Hcase]%andb_true_iff Hrest]%andb_true_iff.
  cbn [map run fold_left step].
  rewrite discover_ascii; [by apply IH|done|].
  apply orb_true_iff in Hcase as [Hm%bool_decide_eq_true|Hs%Nat.ltb_lt]; auto.
Qed.

(** C1 fails on the code: after these sixteen calls of
    [discover_tags_from_text] on a fresh object, the fifteen kept topics
    and the merged "Financial Planning" are all in [discovered_tags], one
    more than [max_tags]. *)
Theorem discovered_tags_exceed_cap `{PyRuntime} :
  let final := run init sixteen_calls in
  size (discovered_tags final) = 16%nat
  ∧ max_tags final = 15%nat
  ∧ discovered_tags final
    = list_to_set (lit "Financial Planning" :: take 15 sixteen_replies).
Proof.
  intros final. subst final. unfold sixteen_calls.
  rewrite run_order_free by by vm_compute.
  split; [by vm_compute|]. split; [by vm_compute|].
  apply (bool_decide_unpack _). by vm_compute.
Qed.

End cap_facts.

Section cap_bound.
Import pre_processing.

Lemma find_most_similar_member `{PyRuntime} self new_tag :
  discovered_tags self ≠ ∅ →
  find_most_similar_existing_tag self new_tag ∈ discovered_tags self.
Proof.
  intros Hne. unfold find_most_similar_existing_tag.
  assert (Hiter : ∀ x, In x (set_iter (discovered_tags self)) →
                       x ∈ discovered_tags self).
  { intros x Hx%list_elem_of_In. rewrite set_iter_perm in Hx.
    by apply elem_of_elements in Hx. }
  destruct (find _ (set_iter _)) as [existing|] eqn:E1.
  { apply find_some in E1 as [Hin _]. by apply Hiter. }
  destruct (find _ generic_tags) as [generic|] eqn:E2.
  { apply find_some in E2 as [_ Hin]. by apply bool_decide_eq_true in Hin. }
  destruct (set_iter (discovered_tags self)) as [|first rest] eqn:E3.
  - destruct Hne. apply leibniz_equiv, elements_empty_iff.
    apply Permutation_nil_r. by rewrite <- set_iter_perm, E3.
  - apply Hiter. by left.
Qed.

Lemma normalize_outcome `{PyRuntime} self new_tag :
  max_tags self = 15%nat →
  let r := normalize_and_merge_tags self new_tag in
  discovered_tags r.2 = discovered_tags self
  ∧ max_tags r.2 = max_tags self
  ∧ (r.1 ∈ canonical_tags
     ∨ (size (discovered_tags self) < 15)%nat
     ∨ r.1 ∈ discovered_tags self).
Proof.
  intros Hmax r. subst r. unfold normalize_and_merge_tags.
  destruct (merge_loop merge_rules _) as [main_tag|] eqn:Hm.
  - cbn [fst snd discovered_tags max_tags]. split; [done|]. split; [done|].
    left. rewrite <- merge_rules_keys. by eapply merge_loop_key.
  - rewrite Hmax.
    destruct (Nat.ltb_spec (size (discovered_tags self)) 15) as [Hlt|Hge];
      cbn [fst snd]; (split; [done|]); (split; [done|]); right; [by left|].
    right. apply find_most_similar_member.
    intros Hempty. rewrite Hempty, size_empty in Hge. lia.
Qed.

Lemma add_tag_cap_inv self self' tag :
  cap_inv self →
  discovered_tags self' = discovered_tags self →
  max_tags self' = max_tags self →
  tag ∈ canonical_tags
  ∨ (size (discovered_tags self) < 15)%nat
  ∨ tag ∈ discovered_tags self →
  cap_inv (add_tag self' tag).
Proof.
  intros [Hmax Hsize] Hd Hm Hcase. unfold cap_inv, add_tag.
  cbn [max_tags discovered_tags]. rewrite Hd, Hm. split; [done|].
  destruct Hcase as [Hcanon|[Hlt|Hin]].
  - replace (noncanonical ({[tag]} ∪ discovered_tags self))
      with (noncanonical (discovered_tags self)); [done|].
    apply set_eq. intros x. unfold noncanonical.
    rewrite !elem_of_filter, elem_of_union, elem_of_singleton.
    split; [intros [Hx Hin]; split; auto|intros [Hx [->|Hin]]; done].
  - transitivity (size ({[tag]} ∪ discovered_tags self)).
    + apply subseteq_size. unfold noncanonical.
      intros x Hx. by apply elem_of_filter in Hx as [_ Hx].
    + rewrite size_union_alt, size_singleton.
      assert (size (discovered_tags self ∖ {[tag]})
              ≤ size (discovered_tags self))%nat
        by (apply subseteq_size; intros x [Hx _]%elem_of_difference; done).
      lia.
  - by rewrite subseteq_union_1_L by (by apply singleton_subseteq_l).
Qed.

Lemma step_cap_inv `{PyRuntime} self c : cap_inv self → cap_inv (step self c).
Proof.
  intros Hinv. pose proof Hinv as [Hmax Hsize].
  assert (Hnorm : ∀ t,
    cap_inv (add_tag (normalize_and_merge_tags self t).2
                     (normalize_and_merge_tags self t).1)).
  { intros t. destruct (normalize_outcome self t Hmax) as (Hd & Hm & Hcase).
    by apply (add_tag_cap_inv self). }
  assert (Hfb : ∀ text, cap_inv (extract_tags_fallback self text).2).
  { intros text. unfold extract_tags_fallback.
    specialize (Hnorm (best_category (lower text))).
    by destruct (normalize_and_merge_tags self _). }
  destruct c as [new_tag|text [content|]|text]; cbn [step].
  - destruct (normalize_outcome self new_tag Hmax) as (Hd & Hm & _).
    unfold cap_inv. by rewrite Hd, Hm.
  - unfold discover_tags_from_text. specialize (Hnorm (Py.strip content)).
    by destruct (normalize_and_merge_tags self _).
  - apply Hfb.
  - apply Hfb.
Qed.

Lemma run_cap_inv `{PyRuntime} self calls : cap_inv self → cap_inv (run self calls).
Proof.
  revert self. induction calls as [|c calls IH]; intros self Hinv; [done|].
  simpl. by apply IH, step_cap_inv.
Qed.

Lemma discovered_tags_bound `{PyRuntime} (calls : list call) :
  (size (noncanonical (discovered_tags (run init calls))) ≤ 15)%nat
  ∧ (size (discovered_tags (run init calls)) ≤ 27)%nat.
Proof.
  destruct (run_cap_inv init calls) as [_ Hsize].
  { split; [done|]. unfold noncanonical. cbn [init discovered_tags].
    rewrite filter_empty_L, size_empty; [lia|apply _]. }
  split; [done|].
  set (X := discovered_tags (run init calls)) in *.
  assert (Hsub : X ⊆ noncanonical X ∪ list_to_set canonical_tags).
  { intros x Hx. destruct (decide (x ∈ canonical_tags)) as [Hc|Hc].
    - apply elem_of_union_r. by apply elem_of_list_to_set.
    - apply elem_of_union_l. by apply elem_of_filter. }
  apply subseteq_size in Hsub. rewrite size_union_alt in Hsub.
  assert (size (list_to_set canonical_tags ∖ noncanonical X
                : gset (list N)) ≤ 12)%nat.
  { transitivity (size (list_to_set canonical_tags : gset (list N))).
    - apply subseteq_size. intros x [Hx _]%elem_of_difference. done.
    - by vm_compute. }
  lia.
Qed.

End cap_bound.

(** * Further properties of the code *)

(** ** Line counting *)

Section count_lines_facts.
Import pre_processing.

Lemma split_length (x : str) : length (Py.split nl x) = S (newlines x).
Proof.
  unfold newlines. induction x as [|c x IH]; [done|].
  destruct (N.eq_dec c nl) as [->|Hc].
  - rewrite split_cons_nl. cbn [length]. rewrite IH.
    by rewrite count_occ_cons_eq.
  - rewrite split_cons_ne by done. rewrite count_occ_cons_neq by done.
    rewrite <- IH. pose proof (split_nonempty x).
    by destruct (Py.split nl x).
Qed.

Lemma newlines_app (x y : str) : newlines (x ++ y) = (newlines x + newlines y)%nat.
Proof. apply count_occ_app. Qed.

(** X1: [count_lines] is 0 exactly on a text that is empty or all white
    space; on any other text it is the number of newline characters plus
    one, as its docstring says. *)
Theorem count_lines_spec `{PyRuntime} (text : str) :
  (count_lines text = 0%nat ↔ Py.strip text = [])
  ∧ (Py.strip text ≠ [] → count_lines text = S (newlines text)).
Proof.
  unfold count_lines. case_bool_decide as Hs.
  - split; [done|]. by intros [].
  - rewrite split_length. split; [|done]. split; [done|]. by intros.
Qed.

End count_lines_facts.

Section count_lines_cleaned.
Import pre_processing.

Lemma newlines_squeeze (x : str) : (newlines (squeeze x) ≤ newlines x)%nat.
Proof.
  unfold newlines. induction x as [|c x IH]; [done|].
  rewrite squeeze_cons. destruct (starts3 (c :: x)).
  - destruct (N.eq_dec c nl) as [->|Hc].
    + rewrite count_occ_cons_eq by done. lia.
    + rewrite count_occ_cons_neq by done. lia.
  - destruct (N.eq_dec c nl) as [->|Hc].
    + rewrite !count_occ_cons_eq by done. lia.
    + rewrite !count_occ_cons_neq by done. lia.
Qed.

Lemma newlines_strip_by (sp : N → bool) (x : str) :
  (newlines (Py.strip_by sp x) ≤ newlines x)%nat.
Proof.
  unfold Py.strip_by.
  destruct (lstrip_by_suffix sp x) as [a Ha].
  destruct (rstrip_by_prefix sp (Py.lstrip_by sp x)) as [b Hb].
  rewrite Ha at 2. rewrite Hb at 2. rewrite !newlines_app. lia.
Qed.

Lemma newlines_stripped_lines `{PyRuntime} (x : str) :
  newlines (Py.join [nl] (map Py.strip (Py.split nl x))) = newlines x.
Proof.
  assert (Hlen : length (Py.split nl (Py.join [nl] (map Py.strip (Py.split nl x))))
                 = length (Py.split nl x)).
  { rewrite split_join.
    - by rewrite length_map.
    - pose proof (split_nonempty x). by destruct (Py.split nl x).
    - apply Forall_fmap, Forall_forall. intros l Hl%split_no_nl.
      intros Hin. by apply Hl, (strip_by_elem isspace). }
  rewrite !split_length in Hlen. lia.
Qed.

Lemma newlines_clean_text `{PyRuntime} (x : str) :
  (newlines (clean_text x) ≤ newlines x)%nat.
Proof.
  unfold clean_text. case_bool_decide; [by subst|].
  rewrite re_sub_newlines_squeeze.
  etransitivity; [apply newlines_strip_by|].
  etransitivity; [apply newlines_squeeze|].
  by rewrite newlines_stripped_lines.
Qed.

(** X2: a text that survives cleaning has at least one line and no more
    lines than the raw text had. *)
Theorem count_lines_clean_text `{PyRuntime} (x : str) :
  clean_text x ≠ [] →
  (1 ≤ count_lines (clean_text x) ≤ length (Py.split nl x))%nat.
Proof.
  intros Hne. unfold count_lines.
  destruct (clean_text_cleaned x) as (_ & _ & Htrim).
  unfold Py.strip. rewrite trimmed_strip_by by done.
  rewrite bool_decide_eq_false_2 by done.
  rewrite !split_length. pose proof (newlines_clean_text x). lia.
Qed.

(** On the text "a", which cleans to itself. *)
Lemma count_lines_clean_text_witness :
  @clean_text ascii_runtime (lit "a") ≠ []
  ∧ (1 ≤ @count_lines ascii_runtime (@clean_text ascii_runtime (lit "a"))
     ≤ length (Py.split nl (lit "a")))%nat.
Proof.
  assert (Hne : @clean_text ascii_runtime (lit "a") ≠ []) by (by vm_compute).
  split; [exact Hne|].
  exact (@count_lines_clean_text ascii_runtime (lit "a") Hne).
Defined.

End count_lines_cleaned.

(** ** Tag normalisation: what a call returns and what it changes *)

Section normalize_facts.
Import pre_processing.

Lemma set_iter_empty `{PyRuntime} (X : gset (list N)) :
  X = ∅ → set_iter X = [].
Proof.
  intros ->. apply Permutation_nil_r. rewrite set_iter_perm.
  by rewrite elements_empty.
Qed.

Lemma find_most_similar_empty `{PyRuntime} (self : LinkedInPostCleaner)
    (new_tag : str) :
  discovered_tags self = ∅ →
  find_most_similar_existing_tag self new_tag = lit "General".
Proof.
  intros Hempty. unfold find_most_similar_existing_tag.
  rewrite (set_iter_empty _ Hempty). cbn [find].
  rewrite Hempty.
  replace (find (λ generic, bool_decide (generic ∈ (∅ : gset (list N)))) generic_tags)
    with (@None (list N)); [done|].
  symmetry. induction generic_tags as [|g gs IH]; [done|].
  cbn [find]. by rewrite bool_decide_eq_false_2 by set_solver.
Qed.

Lemma normalize_keeps_tags `{PyRuntime} (self : LinkedInPostCleaner)
    (new_tag : str) :
  discovered_tags (normalize_and_merge_tags self new_tag).2 = discovered_tags self
  ∧ max_tags (normalize_and_merge_tags self new_tag).2 = max_tags self.
Proof.
  unfold normalize_and_merge_tags.
  destruct (merge_loop merge_rules _) as [main_tag|]; [done|].
  by destruct (_ <? _)%nat.
Qed.

(** X3: at the cap, [find_most_similar_existing_tag] returns one of the
    tags found so far whenever there is one, whatever the order in which
    the set is iterated; with no tag found it returns "General". *)
Theorem find_most_similar_existing_tag_spec `{PyRuntime}
    (self : LinkedInPostCleaner) (new_tag : str) :
  (discovered_tags self ≠ ∅ →
     find_most_similar_existing_tag self new_tag ∈ discovered_tags self)
  ∧ (discovered_tags self = ∅ →
     find_most_similar_existing_tag self new_tag = lit "General").
Proof.
  split; [apply find_most_similar_member|apply find_most_similar_empty].
Qed.

(** X4: [normalize_and_merge_tags] never touches [discovered_tags] or
    [max_tags], and changes [tag_synonyms] at most at one key, the
    stripped and title-cased tag, which then maps to the returned tag. *)
Theorem normalize_frame `{PyRuntime} (self : LinkedInPostCleaner)
    (new_tag : str) :
  let r := normalize_and_merge_tags self new_tag in
  discovered_tags r.2 = discovered_tags self
  ∧ max_tags r.2 = max_tags self
  ∧ (∀ k, k ≠ title (Py.strip new_tag) →
       tag_synonyms r.2 !! k = tag_synonyms self !! k)
  ∧ (tag_synonyms r.2 = tag_synonyms self
     ∨ tag_synonyms r.2 !! title (Py.strip new_tag) = Some r.1).
Proof.
  intros r. subst r. unfold normalize_and_merge_tags.
  destruct (merge_loop merge_rules _) as [main_tag|].
  - cbn [fst snd discovered_tags max_tags tag_synonyms].
    split; [done|]. split; [done|]. split.
    + intros k Hk. by rewrite lookup_insert_ne.
    + right. apply lookup_insert_eq.
  - destruct (_ <? _)%nat; cbn [snd]; auto.
Qed.

(** X5: the tag returned by [normalize_and_merge_tags] is a key of
    [merge_rules], or, below the cap, the stripped and title-cased input,
    or, at the cap, a tag found so far ("General" when there is none). *)
Theorem normalize_result `{PyRuntime} (self : LinkedInPostCleaner)
    (new_tag : str) :
  let result := (normalize_and_merge_tags self new_tag).1 in
  result ∈ canonical_tags
  ∨ ((size (discovered_tags self) < max_tags self)%nat
     ∧ result = title (Py.strip new_tag))
  ∨ ((max_tags self ≤ size (discovered_tags self))%nat
     ∧ result ∈ discovered_tags self)
  ∨ ((max_tags self ≤ size (discovered_tags self))%nat
     ∧ discovered_tags self = ∅ ∧ result = lit "General").
Proof.
  intros result. subst result. unfold normalize_and_merge_tags.
  destruct (merge_loop merge_rules _) as [main_tag|] eqn:Hm.
  - left. cbn [fst]. rewrite <- merge_rules_keys. by eapply merge_loop_key.
  - right.
    destruct (Nat.ltb_spec (size (discovered_tags self)) (max_tags self))
      as [Hlt|Hge]; cbn [fst]; [by left|right].
    destruct (decide (discovered_tags self = ∅)) as [Hempty|Hne].
    + right. split; [done|]. split; [done|].
      by apply find_most_similar_empty.
    + left. split; [done|]. by apply find_most_similar_member.
Qed.

Lemma discover_tags_from_text_parts `{PyRuntime}
    (self : LinkedInPostCleaner) (text : str) (response : option str) :
  ∃ tag, (discover_tags_from_text self text response).1 = [tag]
    ∧ tag ∈ discovered_tags (discover_tags_from_text self text response).2
    ∧ discovered_tags self
      ⊆ discovered_tags (discover_tags_from_text self text response).2
    ∧ max_tags (discover_tags_from_text self text response).2 = max_tags self.
Proof.
  assert (Hgen : ∀ raw,
    let n := normalize_and_merge_tags self raw in
    ∃ tag, [n.1] = [tag]
      ∧ tag ∈ discovered_tags (add_tag n.2 n.1)
      ∧ discovered_tags self ⊆ discovered_tags (add_tag n.2 n.1)
      ∧ max_tags (add_tag n.2 n.1) = max_tags self).
  { intros raw n.
    destruct (normalize_keeps_tags self raw) as (Hd & Hm). fold n in Hd, Hm.
    exists n.1. cbn [add_tag discovered_tags max_tags]. rewrite Hd.
    split; [done|].
    split; [apply elem_of_union_l; by apply elem_of_singleton|].
    split; [apply union_subseteq_r|done]. }
  unfold discover_tags_from_text, extract_tags_fallback.
  destruct response as [content|].
  - specialize (Hgen (Py.strip content)).
    by destruct (normalize_and_merge_tags self (Py.strip content)).
  - specialize (Hgen (best_category (lower text))).
    by destruct (normalize_and_merge_tags self (best_category (lower text))).
Qed.

(** X6: [discover_tags_from_text], with a reply or on the fallback,
    returns exactly one tag; that tag is in [discovered_tags] afterwards,
    which is the old set with this one tag added; [max_tags] is kept. *)
Theorem discover_tags_from_text_spec `{PyRuntime}
    (self : LinkedInPostCleaner) (text : str) (response : option str) :
  let r := discover_tags_from_text self text response in
  ∃ tag, r.1 = [tag]
    ∧ discovered_tags r.2 = {[tag]} ∪ discovered_tags self
    ∧ tag ∈ discovered_tags r.2
    ∧ discovered_tags self ⊆ discovered_tags r.2
    ∧ (size (discovered_tags r.2) ≤ S (size (discovered_tags self)))%nat
    ∧ max_tags r.2 = max_tags self.
Proof.
  intros r. subst r.
  assert (Hgen : ∀ raw,
    let n := normalize_and_merge_tags self raw in
    let r := ([n.1], add_tag n.2 n.1) in
    ∃ tag, r.1 = [tag]
      ∧ discovered_tags r.2 = {[tag]} ∪ discovered_tags self
      ∧ tag ∈ discovered_tags r.2
      ∧ discovered_tags self ⊆ discovered_tags r.2
      ∧ (size (discovered_tags r.2) ≤ S (size (discovered_tags self)))%nat
      ∧ max_tags r.2 = max_tags self).
  { intros raw n r. subst r.
    destruct (normalize_keeps_tags self raw) as (Hd & Hm). fold n in Hd, Hm.
    exists n.1. cbn [fst snd add_tag discovered_tags max_tags]. rewrite Hd.
    split; [done|]. split; [done|].
    split; [apply elem_of_union_l; by apply elem_of_singleton|].
    split; [apply union_subseteq_r|]. split; [|done].
    rewrite size_union_alt, size_singleton.
    assert (size (discovered_tags self ∖ {[n.1]})
            ≤ size (discovered_tags self))%nat
      by (apply subseteq_size; intros x [Hx _]%elem_of_difference; done).
    lia. }
  unfold discover_tags_from_text, extract_tags_fallback.
  destruct response as [content|].
  - specialize (Hgen (Py.strip content)).
    by destruct (normalize_and_merge_tags self (Py.strip content)).
  - specialize (Hgen (best_category (lower text))).
    by destruct (normalize_and_merge_tags self (best_category (lower text))).
Qed.

End normalize_facts.

Section merge_table_facts.
Import pre_processing.

Lemma canonical_tags_merge_into_themselves :
  Forall (λ tag, merges_into_itself tag = true) canonical_tags.
Proof. apply (bool_decide_unpack _). by vm_compute. Qed.

(** X7: every key of [merge_rules], and so every tag a merge returns,
    is returned unchanged when it is normalised again; the call records
    the key as its own synonym. *)
Theorem canonical_tag_fixed `{PyRuntime} (self : LinkedInPostCleaner)
    (tag : list N) :
  tag ∈ canonical_tags →
  normalize_and_merge_tags self tag
  = (tag,
     mkCleaner (discovered_tags self) (max_tags self)
       (<[tag := tag]> (tag_synonyms self))).
Proof.
  intros Hin.
  pose proof (proj1 (Forall_forall _ _) canonical_tags_merge_into_themselves
                tag Hin) as Hok.
  unfold merges_into_itself in Hok.
  apply andb_true_iff in Hok as [[Ha Hn%bool_decide_eq_true]%andb_true_iff
                                   Hm%bool_decide_eq_true].
  rewrite (normalize_merged_ascii self tag tag Ha) by (by rewrite Hn).
  by rewrite Hn.
Qed.

(** On "Technology", on a fresh object. *)
Lemma canonical_tag_fixed_witness :
  lit "Technology" ∈ canonical_tags
  ∧ @normalize_and_merge_tags ascii_runtime init (lit "Technology")
    = (lit "Technology",
       mkCleaner (discovered_tags init) (max_tags init)
         (<[lit "Technology" := lit "Technology"]> (tag_synonyms init))).
Proof.
  assert (Hin : lit "Technology" ∈ canonical_tags).
  { apply (bool_decide_unpack _). by vm_compute. }
  split; [exact Hin|].
  exact (@canonical_tag_fixed ascii_runtime init (lit "Technology") Hin).
Defined.

Lemma title_nil `{PyRuntime} : title [] = [].
Proof. by rewrite title_ascii. Qed.

Lemma lower_nil `{PyRuntime} : lower [] = [].
Proof. by rewrite lower_ascii. Qed.

Lemma contains_nil (x : str) : Py.contains [] x = true.
Proof. by destruct x. Qed.

(** X8: a reply that is blank after stripping, or whose lower-cased
    normal form occurs inside "financial planning", is merged by the
    first rule: the call returns "Financial Planning" and records the
    normal form as its synonym. *)
Theorem contained_in_first_rule `{PyRuntime} (self : LinkedInPostCleaner)
    (new_tag : str) :
  Py.strip new_tag = []
  ∨ Py.contains (lower (title (Py.strip new_tag))) (lit "financial planning")
    = true →
  normalize_and_merge_tags self new_tag
  = (lit "Financial Planning",
     mkCleaner (discovered_tags self) (max_tags self)
       (<[title (Py.strip new_tag) := lit "Financial Planning"]>
          (tag_synonyms self))).
Proof.
  intros Hcase.
  assert (Hc : Py.contains (lower (title (Py.strip new_tag)))
                 (lower (lit "Financial Planning")) = true).
  { rewrite (lower_ascii (lit "Financial Planning")) by done.
    destruct Hcase as [Hblank|Hc]; [|exact Hc].
    rewrite Hblank, title_nil, lower_nil. apply contains_nil. }
  apply normalize_merged. unfold normal_form, merge_rules.
  cbn [merge_loop]. rewrite Hc.
  destruct (_ || _); [done|]. by rewrite orb_true_r.
Qed.

(** On a reply of three spaces, on a fresh object. *)
Lemma contained_in_first_rule_witness :
  (@Py.strip ascii_runtime (lit "   ") = []
   ∨ Py.contains
       (@lower ascii_runtime (@title ascii_runtime (@Py.strip ascii_runtime (lit "   "))))
       (lit "financial planning") = true)
  ∧ @normalize_and_merge_tags ascii_runtime init (lit "   ")
    = (lit "Financial Planning",
       mkCleaner (discovered_tags init) (max_tags init)
         (<[@title ascii_runtime (@Py.strip ascii_runtime (lit "   "))
            := lit "Financial Planning"]> (tag_synonyms init))).
Proof.
  assert (Hblank : @Py.strip ascii_runtime (lit "   ") = []) by (by vm_compute).
  split; [by left|].
  exact (@contained_in_first_rule ascii_runtime init (lit "   ") (or_introl Hblank)).
Defined.

End merge_table_facts.

Section fallback_cap.
Import pre_processing.

Lemma best_category_range (t : str) :
  best_category t ∈ lit "Business" :: map fst main_categories.
Proof.
  unfold best_category.
  destruct (best_loop_spec main_categories t (lit "Business") 0)
    as [[_ ->]|(i & entry & Hi & -> & _)]; [by left|].
  right. cbn [fst]. apply list_elem_of_fmap. exists entry. split; [done|].
  by eapply list_elem_of_lookup_2.
Qed.

Lemma fallback_categories_land :
  Forall (λ category, lands_in_fallback_tags category = true)
    (lit "Business" :: map fst main_categories).
Proof. apply (bool_decide_unpack _). by vm_compute. Qed.

Lemma extract_tags_fallback_inv `{PyRuntime} self text :
  fallback_inv self → fallback_inv (extract_tags_fallback self text).2.
Proof.
  intros [Hmax Hsub].
  pose proof (proj1 (Forall_forall _ _) fallback_categories_land _
                (best_category_range (lower text))) as Hok.
  set (b := best_category (lower text)) in *.
  unfold lands_in_fallback_tags in Hok.
  apply andb_true_iff in Hok as [Ha Hok].
  assert (Hres : (normalize_and_merge_tags self b).1
                 ∈ (list_to_set fallback_tags : gset (list N))).
  { destruct (@merge_loop ascii_runtime merge_rules (@normal_form ascii_runtime b))
      as [main_tag|] eqn:Hm.
    - apply bool_decide_eq_true in Hok.
      rewrite (normalize_merged_ascii self b main_tag) by done.
      by apply elem_of_list_to_set.
    - apply bool_decide_eq_true in Hok.
      destruct (normal_form_ascii b Ha) as [Hn Hna].
      pose proof (merge_loop_ascii merge_rules (normal_form b)
                    merge_rules_ascii Hna) as Hm'.
      rewrite Hn in Hm' at 2. rewrite Hm in Hm'.
      destruct (Nat.ltb_spec (size (discovered_tags self)) (max_tags self))
        as [Hlt|Hge].
      + rewrite normalize_kept by done. cbn [fst]. rewrite Hn.
        by apply elem_of_list_to_set.
      + unfold normalize_and_merge_tags. fold (normal_form b). rewrite Hm'.
        apply Nat.ltb_ge in Hge as Hge'. rewrite Hge'. cbn [fst].
        apply Hsub, find_most_similar_member.
        intros Hempty. rewrite Hempty, size_empty, Hmax in Hge. lia. }
  destruct (normalize_keeps_tags self b) as [Hd Hm].
  unfold extract_tags_fallback. fold b.
  destruct (normalize_and_merge_tags self b) as [tag self'].
  cbn [fst snd] in *. unfold fallback_inv, add_tag.
  cbn [max_tags discovered_tags]. rewrite Hd, Hm. split; [done|].
  apply union_subseteq. split; [by apply singleton_subseteq_l|done].
Qed.

Lemma run_fallback_inv `{PyRuntime} self texts :
  fallback_inv self →
  fallback_inv (run self (map (λ text, Discover text None) texts)).
Proof.
  revert self. induction texts as [|text texts IH]; intros self Hinv; [done|].
  cbn [map run fold_left]. apply IH.
  cbn [step discover_tags_from_text]. by apply extract_tags_fallback_inv.
Qed.

(** X9: when the model call fails on every post, so that every tag
    comes from the keyword fallback, all tags found are among fifteen
    fixed tags and [discovered_tags] stays within the cap. *)
Theorem fallback_only_keeps_cap `{PyRuntime} (texts : list (list N)) :
  let final := run init (map (λ text, Discover text None) texts) in
  discovered_tags final ⊆ list_to_set fallback_tags
  ∧ (size (discovered_tags final) ≤ 15)%nat.
Proof.
  intros final.
  destruct (run_fallback_inv init texts) as [_ Hsub].
  { split; [done|]. cbn [init discovered_tags]. apply empty_subseteq. }
  split; [exact Hsub|].
  etransitivity; [apply subseteq_size, Hsub|]. by vm_compute.
Qed.

End fallback_cap.

(** ** Saving the results *)

Section sorted_facts.

#[export] Instance str_le_total : Total Py.str_le.
Proof.
  intros x. unfold Py.str_le. induction x as [|c x IH]; intros y; [by left|].
  destruct y as [|d y]; [by right|]. simpl.
  destruct (N.lt_trichotomy c d) as [Hlt|[->|Hgt]].
  - left. apply N.ltb_lt in Hlt. by rewrite Hlt.
  - rewrite N.ltb_irrefl, N.eqb_refl. simpl. apply IH.
  - right. apply N.ltb_lt in Hgt. by rewrite Hgt.
Qed.

#[export] Instance str_le_trans : Transitive Py.str_le.
Proof.
  intros x. unfold Py.str_le. induction x as [|c x IH]; intros y z; [done|].
  destruct y as [|d y]; [done|]. destruct z as [|e z]; [done|]. simpl.
  intros [Hcd%N.ltb_lt|[->%N.eqb_eq Hxy]%andb_true_iff]%orb_true_iff
         [Hde%N.ltb_lt|[->%N.eqb_eq Hyz]%andb_true_iff]%orb_true_iff.
  - apply orb_true_iff. left. apply N.ltb_lt. lia.
  - apply orb_true_iff. left. by apply N.ltb_lt.
  - apply orb_true_iff. left. by apply N.ltb_lt.
  - apply orb_true_iff. right. rewrite N.eqb_refl. simpl. by eapply IH.
Qed.

#[export] Instance str_le_antisymm : AntiSymm (=) Py.str_le.
Proof.
  intros x. unfold Py.str_le. induction x as [|c x IH]; intros y.
  - by destruct y.
  - destruct y as [|d y]; [done|]. simpl.
    intros [Hcd%N.ltb_lt|[->%N.eqb_eq Hxy]%andb_true_iff]%orb_true_iff
           [Hdc%N.ltb_lt|[Hdc%N.eqb_eq Hyx]%andb_true_iff]%orb_true_iff;
      try lia.
    f_equal. by apply IH.
Qed.

Lemma sorted_Sorted (xs : list (list N)) : Sorted Py.str_le (Py.sorted xs).
Proof. apply Sorted_merge_sort, _. Qed.

Lemma sorted_Permutation (xs : list (list N)) : Py.sorted xs ≡ₚ xs.
Proof. apply merge_sort_Permutation. Qed.

(** The sorted list depends on the members only, not on their order. *)
Lemma sorted_order_free (xs ys : list (list N)) :
  xs ≡ₚ ys → Py.sorted xs = Py.sorted ys.
Proof.
  intros Hp. apply (Sorted_unique Py.str_le); try apply sorted_Sorted.
  by rewrite !sorted_Permutation.
Qed.

Lemma StronglySorted_sorted (xs : list (list N)) :
  StronglySorted Py.str_le (Py.sorted xs).
Proof. apply Sorted_StronglySorted; [apply _|apply sorted_Sorted]. Qed.

End sorted_facts.

Section save_results_facts.
Import pre_processing.

Lemma final_tags_order_free `{PyRuntime} (self : LinkedInPostCleaner) :
  Py.sorted (set_iter (discovered_tags self))
  = Py.sorted (elements (discovered_tags self)).
Proof. apply sorted_order_free, set_iter_perm. Qed.

Lemma sorted_elements_NoDup (X : gset (list N)) : NoDup (Py.sorted (elements X)).
Proof. rewrite sorted_Permutation. apply NoDup_elements. Qed.

Lemma sorted_elements_elem (X : gset (list N)) t :
  t ∈ Py.sorted (elements X) ↔ t ∈ X.
Proof. by rewrite sorted_Permutation, elem_of_elements. Qed.

Lemma sorted_elements_length (X : gset (list N)) :
  length (Py.sorted (elements X)) = size X.
Proof. by rewrite sorted_Permutation. Qed.

(** X10: the tag list [save_results] writes does not depend on the
    order in which the set is iterated; it is in ascending order, has no
    repetition, holds only tags found, has as many entries as the set has
    members up to [max_tags], and every tag left out sorts after every tag
    kept. *)
Theorem save_results_tags `{PyRuntime} (self : LinkedInPostCleaner)
    (processed_posts : list few_shots.Post) :
  let out := save_results self processed_posts in
  out_discovered_tags out
  = take (max_tags self) (Py.sorted (elements (discovered_tags self)))
  ∧ Sorted Py.str_le (out_discovered_tags out)
  ∧ NoDup (out_discovered_tags out)
  ∧ (∀ t, t ∈ out_discovered_tags out → t ∈ discovered_tags self)
  ∧ length (out_discovered_tags out)
    = (size (discovered_tags self) `min` max_tags self)%nat
  ∧ (∀ t u, t ∈ out_discovered_tags out → u ∈ discovered_tags self →
       u ∉ out_discovered_tags out → Py.str_le t u)
  ∧ out_total_unique_tags out = length (out_discovered_tags out)
  ∧ out_total_posts out = length processed_posts.
Proof.
  intros out. subst out. unfold save_results.
  cbn [out_discovered_tags out_total_unique_tags out_total_posts].
  rewrite final_tags_order_free.
  set (l := Py.sorted (elements (discovered_tags self))).
  pose proof (StronglySorted_sorted (elements (discovered_tags self))) as Hss.
  fold l in Hss. rewrite <- (take_drop (max_tags self) l) in Hss.
  split; [done|]. split.
  { apply StronglySorted_Sorted. by eapply StronglySorted_app_1_l. }
  split.
  { eapply sublist_NoDup; [apply sorted_elements_NoDup|apply sublist_take]. }
  split.
  { intros t (i & Hi & _)%elem_of_take. apply sorted_elements_elem.
    by eapply list_elem_of_lookup_2. }
  split.
  { rewrite length_take. unfold l. rewrite sorted_elements_length. lia. }
  split; [|done].
  intros t u Ht Hu Hnot.
  apply sorted_elements_elem in Hu. fold l in Hu.
  rewrite <- (take_drop (max_tags self) l) in Hu.
  apply elem_of_app in Hu as [Hu|Hu]; [done|].
  by eapply StronglySorted_app_1_elem_of.
Qed.

(** X11: when the tags found fit within [max_tags], [save_results]
    writes all of them; when they do not, a tag that was found, and may
    be the tag of a saved post, is missing from the written list. *)
Theorem save_results_coverage `{PyRuntime} (self : LinkedInPostCleaner)
    (processed_posts : list few_shots.Post) :
  let out := save_results self processed_posts in
  ((size (discovered_tags self) ≤ max_tags self)%nat →
     ∀ t, t ∈ out_discovered_tags out ↔ t ∈ discovered_tags self)
  ∧ ((max_tags self < size (discovered_tags self))%nat →
     ∃ t, t ∈ discovered_tags self ∧ t ∉ out_discovered_tags out).
Proof.
  intros out. subst out. unfold save_results. cbn [out_discovered_tags].
  rewrite final_tags_order_free.
  set (l := Py.sorted (elements (discovered_tags self))).
  assert (Hlen : length l = size (discovered_tags self))
    by apply sorted_elements_length.
  split.
  - intros Hfit t. rewrite take_ge by lia. apply sorted_elements_elem.
  - intros Hover.
    destruct (lookup_lt_is_Some_2 l (max_tags self)) as [t Ht]; [lia|].
    exists t. split.
    + apply sorted_elements_elem. by eapply list_elem_of_lookup_2.
    + intros Hin. apply list_elem_of_lookup in Hin as [i Hi].
      pose proof (lookup_lt_Some _ _ _ Hi) as Hlt. rewrite length_take in Hlt.
      rewrite lookup_take_lt in Hi by lia.
      pose proof (sorted_elements_NoDup (discovered_tags self)) as Hnd.
      fold l in Hnd.
      pose proof (NoDup_lookup _ _ _ _ Hnd Hi Ht). lia.
Qed.

End save_results_facts.

(** ** The per-post pipeline and the batch *)

Section engagement_facts.
Import pre_processing.



End engagement_facts.

Section process_facts.
Import pre_processing.

Lemma detect_loop_range `{PyRuntime} patterns t :
  detect_loop patterns t = lit "English" ∨ detect_loop patterns t = lit "Urduish".
Proof.
  induction patterns as [|p rest IH]; simpl; [by left|].
  destruct (re_search p t); [by right|done].
Qed.

Lemma process_single_post_survives `{PyRuntime} self post_data response :
  survives post_data = true →
  ∃ cleaned_text engagement,
    cleaned_text ≠ []
    ∧ (∃ text, cleaned_text = clean_text text)
    ∧ process_single_post self post_data response
      = (Processed
           (few_shots.mkPost cleaned_text (Z.of_nat engagement)
              (Z.of_nat (count_lines cleaned_text))
              (detect_language cleaned_text)
              (discover_tags_from_text self cleaned_text response).1),
         (discover_tags_from_text self cleaned_text response).2).
Proof.
  unfold survives, process_single_post.
  destruct post_data as [| | | | |fields]; try done.
  destruct (clean_text_value _) as [cleaned_text|] eqn:Hc; [|done].
  intros [Hne%negb_true_iff%bool_decide_eq_false
          He%bool_decide_eq_true]%andb_true_iff.
  rewrite (bool_decide_eq_false_2 _ Hne).
  destruct (calculate_engagement fields) as [engagement|]; [|done].
  exists cleaned_text, engagement. split; [done|]. split.
  - unfold clean_text_value in Hc.
    destruct (Py.truthy _); [|congruence].
    destruct (default _ _); try done. injection Hc as <-. eauto.
  - by destruct (discover_tags_from_text self cleaned_text response).
Qed.

Lemma process_single_post_dropped `{PyRuntime} self post_data response :
  survives post_data = false →
  process_single_post self post_data response = (Raised, self)
  ∨ process_single_post self post_data response = (Skipped, self).
Proof.
  unfold survives, process_single_post.
  destruct post_data as [| | | | |fields]; try by left.
  destruct (clean_text_value _) as [cleaned_text|]; [|by left].
  case_bool_decide as Hne; [by right|].
  destruct (calculate_engagement fields) as [engagement|]; [|by left].
  cbn [negb andb]. by rewrite bool_decide_eq_true_2.
Qed.

(** X13: [process_single_post] skips a post exactly when its text, once
    cleaned, is empty, and a post that is skipped or raises leaves the
    tag state as it was; a processed post carries a non-empty text that
    cleaning no longer changes, its line count (at least 1), a
    non-negative engagement, the language detected on the cleaned text
    ("English" or "Urduish") and exactly one tag, which is in
    [discovered_tags] afterwards. *)
Theorem process_single_post_spec `{PyRuntime} (self : LinkedInPostCleaner)
    (post_data : Py.json) (response : option str) :
  let r := process_single_post self post_data response in
  match r.1 with
  | Raised => r.2 = self
  | Skipped =>
      r.2 = self
      ∧ ∃ fields, post_data = Py.JObj fields
          ∧ clean_text_value
              (default (Py.JStr []) (Py.dict_get fields (lit "text")))
            = Some []
  | Processed p =>
      well_formed_post (discovered_tags r.2) p
      ∧ discovered_tags self ⊆ discovered_tags r.2
      ∧ max_tags r.2 = max_tags self
  end.
Proof.
  intros r. subst r. destruct (survives post_data) eqn:Hs.
  - destruct (process_single_post_survives self post_data response Hs)
      as (cleaned_text & engagement & Hne & [text ->] & ->).
    cbn [fst snd].
    destruct (discover_tags_from_text_parts self (clean_text text) response)
      as (tag & Htag & Hin & Hsub & Hmax).
    split; [|by split].
    unfold well_formed_post. cbn [few_shots.text few_shots.line_count
      few_shots.engagement few_shots.language few_shots.tags].
    destruct (clean_text_cleaned text) as (Hlines & Hfree & Htrim).
    split; [done|]. split; [by apply cleaned_fixed|]. split; [done|].
    split.
    { unfold count_lines, Py.strip. rewrite trimmed_strip_by by done.
      rewrite bool_decide_eq_false_2 by done.
      pose proof (split_nonempty (clean_text text)).
      destruct (Py.split nl (clean_text text)); [done|]. simpl. lia. }
    split; [lia|]. split; [done|].
    split; [apply detect_loop_range|]. eauto.
  - unfold process_single_post in *. unfold survives in Hs.
    destruct post_data as [| | | | |fields]; try done.
    destruct (clean_text_value _) as [cleaned_text|] eqn:Hc; [|done].
    case_bool_decide as Hne; [subst; cbn [fst snd]; eauto|].
    destruct (calculate_engagement fields) as [engagement|]; [|done].
    cbn [negb andb] in Hs. by rewrite bool_decide_eq_true_2 in Hs.
Qed.

End process_facts.

Section process_posts_facts.
Import pre_processing.

Lemma process_posts_cons_dropped `{PyRuntime} self post_data response rest :
  survives post_data = false →
  process_posts self ((post_data, response) :: rest) = process_posts self rest.
Proof.
  intros Hs. cbn [process_posts].
  destruct (process_single_post_dropped self post_data response Hs) as [->| ->];
    by destruct (process_posts self rest).
Qed.

Lemma process_posts_cons_survives `{PyRuntime} self post_data response rest :
  survives post_data = true →
  ∃ p self',
    process_single_post self post_data response = (Processed p, self')
    ∧ process_posts self ((post_data, response) :: rest)
      = (p :: (process_posts self' rest).1, (process_posts self' rest).2).
Proof.
  intros Hs.
  destruct (process_single_post_survives self post_data response Hs)
    as (cleaned_text & engagement & _ & _ & Hp).
  eexists _, _. split; [exact Hp|].
  cbn [process_posts]. rewrite Hp. by destruct (process_posts _ rest).
Qed.

(** X14: a post that raises or is skipped does not stop the batch and
    leaves no trace: [process_posts] gives the same posts and the same
    tag state as on the batch without such posts, one processed post for
    each remaining raw post, in order. *)
Theorem process_posts_drops `{PyRuntime} (self : LinkedInPostCleaner)
    (posts_data : list (Py.json * option (list N))) :
  let kept := List.filter (λ entry, survives entry.1) posts_data in
  process_posts self posts_data = process_posts self kept
  ∧ length (process_posts self posts_data).1 = length kept
  ∧ (length (process_posts self posts_data).1 ≤ length posts_data)%nat.
Proof.
  intros kept. subst kept.
  assert (Hmain : process_posts self posts_data
                  = process_posts self (List.filter (λ entry, survives entry.1) posts_data)
                  ∧ length (process_posts self posts_data).1
                    = length (List.filter (λ entry, survives entry.1) posts_data)).
  { revert self. induction posts_data as [|[post_data response] rest IH];
      intros self; [done|].
    cbn [List.filter fst]. destruct (survives post_data) eqn:Hs.
    - destruct (process_posts_cons_survives self post_data response rest Hs)
        as (p & self' & Hp & ->).
      destruct (process_posts_cons_survives self post_data response
                  (List.filter (λ entry, survives entry.1) rest) Hs)
        as (p' & self'' & Hp' & ->).
      rewrite Hp in Hp'. injection Hp' as <- <-.
      destruct (IH self') as [Heq Hlen]. rewrite <- Heq.
      cbn [fst length]. by rewrite Hlen.
    - rewrite process_posts_cons_dropped by done. apply IH. }
  destruct Hmain as [Heq Hlen]. split; [done|]. split; [done|].
  rewrite Hlen. apply filter_length_le.
Qed.

Lemma well_formed_post_mono `{PyRuntime} (X Y : gset (list N)) p :
  X ⊆ Y → well_formed_post X p → well_formed_post Y p.
Proof.
  intros Hsub (? & ? & ? & ? & ? & ? & ? & tag & ? & ?).
  repeat split; try done. exists tag. split; [done|]. by apply Hsub.
Qed.

Lemma process_single_post_parts `{PyRuntime} self post_data response p self' :
  process_single_post self post_data response = (Processed p, self') →
  well_formed_post (discovered_tags self') p
  ∧ discovered_tags self ⊆ discovered_tags self'
  ∧ max_tags self' = max_tags self
  ∧ ∃ text, self' = step self (Discover text response).
Proof.
  intros Hp. destruct (survives post_data) eqn:Hs.
  - destruct (process_single_post_survives self post_data response Hs)
      as (cleaned_text & engagement & Hne & [text ->] & Hp').
    rewrite Hp in Hp'. injection Hp' as -> ->.
    destruct (discover_tags_from_text_parts self (clean_text text) response)
      as (tag & Htag & Hin & Hsub & Hmax).
    split; [|split; [done|split; [done|by exists (clean_text text)]]].
    unfold well_formed_post. cbn [few_shots.text few_shots.line_count
      few_shots.engagement few_shots.language few_shots.tags].
    destruct (clean_text_cleaned text) as (Hlines & Hfree & Htrim).
    split; [done|]. split; [by apply cleaned_fixed|]. split; [done|].
    split.
    { unfold count_lines, Py.strip. rewrite trimmed_strip_by by done.
      rewrite bool_decide_eq_false_2 by done.
      pose proof (split_nonempty (clean_text text)).
      destruct (Py.split nl (clean_text text)); [done|]. simpl. lia. }
    split; [lia|]. split; [done|].
    split; [apply detect_loop_range|]. eauto.
  - destruct (process_single_post_dropped self post_data response Hs)
      as [Hd|Hd]; rewrite Hd in Hp; done.
Qed.

(** X15: every post [process_posts] returns has a non-empty text that
    cleaning no longer changes, its line count (at least 1), a
    non-negative engagement, a language that is "English" or "Urduish",
    and exactly one tag, which is among the tags found when the batch
    ends; the batch only adds to the tags found and keeps [max_tags]. *)
Theorem process_posts_well_formed `{PyRuntime} (self : LinkedInPostCleaner)
    (posts_data : list (Py.json * option (list N))) :
  let r := process_posts self posts_data in
  Forall (well_formed_post (discovered_tags r.2)) r.1
  ∧ discovered_tags self ⊆ discovered_tags r.2
  ∧ max_tags r.2 = max_tags self.
Proof.
  intros r. subst r. revert self.
  induction posts_data as [|[post_data response] rest IH]; intros self.
  - by split.
  - destruct (survives post_data) eqn:Hs.
    + destruct (process_posts_cons_survives self post_data response rest Hs)
        as (p & self' & Hp & ->).
      destruct (process_single_post_parts _ _ _ _ _ Hp) as (Hwf & Hsub & Hmax & _).
      destruct (IH self') as (Hall & Hsub' & Hmax'). cbn [fst snd].
      split; [|split; [by etransitivity|congruence]].
      apply Forall_cons. split; [|done].
      by eapply well_formed_post_mono.
    + rewrite process_posts_cons_dropped by done. apply IH.
Qed.

Lemma process_posts_cap_inv `{PyRuntime} self posts_data :
  cap_inv self → cap_inv (process_posts self posts_data).2.
Proof.
  revert self. induction posts_data as [|[post_data response] rest IH];
    intros self Hinv; [done|].
  destruct (survives post_data) eqn:Hs.
  - destruct (process_posts_cons_survives self post_data response rest Hs)
      as (p & self' & Hp & ->).
    destruct (process_single_post_parts _ _ _ _ _ Hp) as (_ & _ & _ & text & ->).
    cbn [snd]. by apply IH, step_cap_inv.
  - rewrite process_posts_cons_dropped by done. by apply IH.
Qed.

Lemma cap_inv_bound (self : LinkedInPostCleaner) :
  cap_inv self → (size (discovered_tags self) ≤ 27)%nat.
Proof.
  intros [_ Hsize].
  set (X := discovered_tags self) in *.
  assert (Hsub : X ⊆ noncanonical X ∪ list_to_set canonical_tags).
  { intros x Hx. destruct (decide (x ∈ canonical_tags)) as [Hc|Hc].
    - apply elem_of_union_r. by apply elem_of_list_to_set.
    - apply elem_of_union_l. by apply elem_of_filter. }
  apply subseteq_size in Hsub. rewrite size_union_alt in Hsub.
  assert (size (list_to_set canonical_tags ∖ noncanonical X
                : gset (list N)) ≤ 12)%nat.
  { transitivity (size (list_to_set canonical_tags : gset (list N))).
    - apply subseteq_size. intros x [Hx _]%elem_of_difference. done.
    - by vm_compute. }
  lia.
Qed.

(** X16: however many posts a batch on a fresh object processes and
    whatever the model replies, at most 15 of the tags found lie outside
    the keys of [merge_rules], and at most 27 tags are found in all. *)
Theorem process_posts_tags_bound `{PyRuntime}
    (posts_data : list (Py.json * option (list N))) :
  let final := (process_posts init posts_data).2 in
  (size (noncanonical (discovered_tags final)) ≤ 15)%nat
  ∧ (size (discovered_tags final) ≤ 27)%nat.
Proof.
  intros final.
  assert (Hinv : cap_inv final).
  { apply process_posts_cap_inv. split; [done|].
    unfold noncanonical. cbn [init discovered_tags].
    rewrite filter_empty_L, size_empty; [lia|apply _]. }
  split; [apply Hinv|by apply cap_inv_bound].
Qed.

End process_posts_facts.

(** ** From the batch to the prompt *)

Section pipeline_facts.
Import few_shots post_generator pre_processing.

Lemma get_length_str_bucket (n : Z) :
  get_length_str (categorize_length n)
  = Some (if (n <? 5)%Z then lit "1 to 5 lines"
          else if (n <=? 10)%Z then lit "6 to 10 lines"
          else lit "11 to 15 lines").
Proof.
  unfold categorize_length.
  destruct (Z.ltb_spec n 5); [by vm_compute|].
  destruct (Z.leb_spec 5 n); [|lia].
  destruct (Z.leb_spec n 10); by vm_compute.
Qed.

Lemma process_posts_single_tag `{PyRuntime} (self : LinkedInPostCleaner)
    (posts_data : list (Py.json * option (list N))) (p : Post) :
  p ∈ (process_posts self posts_data).1 → ∃ tag, tags p = [tag].
Proof.
  revert self.
  induction posts_data as [|[post_data response] rest IH]; intros self Hp.
  - by apply elem_of_nil in Hp.
  - destruct (survives post_data) eqn:Hs.
    + destruct (process_posts_cons_survives self post_data response rest Hs)
        as (q & self' & Hq & Heq).
      rewrite Heq in Hp. cbn [fst] in Hp.
      apply elem_of_cons in Hp as [->|Hp]; [|by apply (IH self')].
      destruct (process_single_post_parts _ _ _ _ _ Hq)
        as ((_ & _ & _ & _ & _ & _ & _ & tag & Htag & _) & _).
      by exists tag.
    + rewrite process_posts_cons_dropped in Hp by done. by apply (IH self).
Qed.

(** X17: the corpus a batch produces can be loaded as soon as it holds
    a post, and every post of it is then returned by the filter for the
    bucket of its line count, its language and its tag, a triple for
    which the prompt has a length range. *)
Theorem processed_post_retrievable `{PyRuntime} (self : LinkedInPostCleaner)
    (posts_data : list (Py.json * option (list N))) (p : Post) :
  p ∈ (process_posts self posts_data).1 →
  ∃ few_shot tag,
    load_posts (process_posts self posts_data).1 = Some few_shot
    ∧ tags p = [tag]
    ∧ mkRow p (categorize_length (line_count p))
      ∈ get_filtered_posts few_shot (categorize_length (line_count p))
          (language p) tag
    ∧ get_length_str (categorize_length (line_count p)) ≠ None.
Proof.
  intros Hp.
  destruct (process_posts_single_tag self posts_data p Hp) as (tag & Htag).
  destruct (load_posts (process_posts self posts_data).1) as [few_shot|] eqn:Hl.
  - exists few_shot, tag. split; [done|]. split; [done|]. split.
    + rewrite get_filtered_posts_filter.
      apply list_elem_of_In, filter_In. split.
      * rewrite (load_posts_df _ _ Hl).
        apply (in_map (λ q, mkRow q (categorize_length (line_count q)))).
        by apply list_elem_of_In.
      * apply row_matches_spec. unfold col_length, col_language, col_tags.
        cbn [row_length post]. rewrite Htag. split; [done|]. split; [done|].
        left.
    + by rewrite get_length_str_bucket.
  - destruct (process_posts self posts_data).1; [|done].
    by apply not_elem_of_nil in Hp.
Qed.

(** On a batch of three raw posts of which the first raises and the
    last is blank. *)
Lemma processed_post_retrievable_witness :
  sample_processed ∈ (@process_posts ascii_runtime init sample_batch).1
  ∧ ∃ few_shot tag,
      load_posts (@process_posts ascii_runtime init sample_batch).1
      = Some few_shot
      ∧ tags sample_processed = [tag]
      ∧ mkRow sample_processed (categorize_length (line_count sample_processed))
        ∈ get_filtered_posts few_shot
            (categorize_length (line_count sample_processed))
            (language sample_processed) tag
      ∧ get_length_str (categorize_length (line_count sample_processed)) ≠ None.
Proof.
  assert (Hin : sample_processed
                ∈ (@process_posts ascii_runtime init sample_batch).1).
  { replace (@process_posts ascii_runtime init sample_batch).1
      with [sample_processed] by (by vm_compute). left. }
  split; [exact Hin|].
  exact (@processed_post_retrievable ascii_runtime init sample_batch
           sample_processed Hin).
Defined.

End pipeline_facts.

(** ** The corpus: unique tags and length buckets *)

Section corpus_facts.
Import few_shots post_generator.

Lemma load_posts_unique_tags (posts : list Post) (self : FewShotPosts) :
  load_posts posts = Some self →
  unique_tags self
  = list_to_set
      (concat (map (λ r, map unquoted (tags (post r)))
                 (map (λ p, mkRow p (categorize_length (line_count p))) posts))).
Proof. destruct posts; [done|]. by intros [= <-]. Qed.

(** X18: the unique tags of a loaded corpus are exactly the tags of
    its posts with the quote characters stripped from their ends; none of
    them begins or ends with a single quote. *)
Theorem get_tags_spec (posts : list Post) (self : FewShotPosts) :
  load_posts posts = Some self →
  (∀ t, t ∈ get_tags self
        ↔ ∃ p raw, p ∈ posts ∧ raw ∈ tags p ∧ t = unquoted raw)
  ∧ (∀ t, t ∈ get_tags self → head t ≠ Some 39 ∧ last t ≠ Some 39).
Proof.
  intros Hload.
  assert (Hiff : ∀ t, t ∈ get_tags self
                      ↔ ∃ p raw, p ∈ posts ∧ raw ∈ tags p ∧ t = unquoted raw).
  { intros t. unfold get_tags. rewrite (load_posts_unique_tags _ _ Hload).
    split.
    - intros (l & Hl & Ht)%elem_of_list_to_set%list_elem_of_In%in_concat.
      apply in_map_iff in Hl as (r & <- & Hr).
      apply in_map_iff in Hr as (p & <- & Hp).
      apply in_map_iff in Ht as (raw & <- & Hraw). cbn [post] in Hraw.
      exists p, raw. by rewrite !list_elem_of_In.
    - intros (p & raw & Hp & Hraw & ->).
      apply elem_of_list_to_set, list_elem_of_In, in_concat.
      exists (map unquoted (tags p)).
      split.
      + apply in_map_iff.
        exists (mkRow p (categorize_length (line_count p))). split; [done|].
        apply (in_map (λ q, mkRow q (categorize_length (line_count q)))).
        by apply list_elem_of_In.
      + apply (in_map unquoted). by apply list_elem_of_In. }
  split; [exact Hiff|].
  intros t (p & raw & _ & _ & ->)%Hiff.
  destruct (strip_by_trimmed (N.eqb 39) (Py.strip_char 34 raw)) as [Hh Hl].
  split; intros Hc.
  - specialize (Hh 39 Hc). by rewrite N.eqb_refl in Hh.
  - specialize (Hl 39 Hc). by rewrite N.eqb_refl in Hl.
Qed.

(** On the one-post corpus of the end-to-end scenario. *)
Lemma get_tags_spec_witness :
  load_posts sample_posts = Some sample_corpus
  ∧ (∀ t, t ∈ get_tags sample_corpus
          ↔ ∃ p raw, p ∈ sample_posts ∧ raw ∈ tags p ∧ t = unquoted raw)
  ∧ (∀ t, t ∈ get_tags sample_corpus → head t ≠ Some 39 ∧ last t ≠ Some 39).
Proof.
  split; [reflexivity|].
  exact (get_tags_spec sample_posts sample_corpus eq_refl).
Defined.

Lemma categorize_length_bucket (n : Z) : categorize_length n ∈ buckets.
Proof.
  unfold categorize_length, buckets.
  destruct (_ <? _)%Z; [left|].
  destruct (_ && _); [right; left|right; right; left].
Qed.

Lemma bucket_counts language tag (rows : list Row) :
  Forall (λ r, col_length r ∈ buckets) rows →
  (length (List.filter (row_matches (lit "Short") language tag) rows)
   + length (List.filter (row_matches (lit "Medium") language tag) rows)
   + length (List.filter (row_matches (lit "Long") language tag) rows)
   = length (List.filter (language_tag_matches language tag) rows))%nat.
Proof.
  destruct bucket_names_distinct as (Hsm & Hsl & Hml).
  induction 1 as [|r rows Hr _ IH]; [done|].
  assert (Hstep : ∀ l,
    List.filter (row_matches l language tag) (r :: rows)
    = if language_tag_matches language tag r && bool_decide (col_length r = l)
      then r :: List.filter (row_matches l language tag) rows
      else List.filter (row_matches l language tag) rows) by done.
  rewrite !Hstep. cbn [List.filter].
  destruct (language_tag_matches language tag r); cbn [andb]; [|exact IH].
  unfold buckets in Hr.
  apply elem_of_cons in Hr as [Hr|Hr]; [|apply elem_of_cons in Hr as [Hr|Hr]];
    [| |apply list_elem_of_singleton in Hr]; rewrite Hr;
    repeat (first [rewrite bool_decide_eq_true_2 by done
                  |rewrite bool_decide_eq_false_2 by congruence]);
    cbn [length]; lia.
Qed.

(** X19: on a loaded corpus, for a language and a tag, every row with
    that language and tag is returned under the bucket of its own length,
    which is "Short", "Medium" or "Long"; the three buckets together
    return each such row once; any other length returns nothing. *)
Theorem buckets_partition (posts : list Post) (self : FewShotPosts)
    (language tag : list N) :
  load_posts posts = Some self →
  (∀ r, r ∈ df self → col_language r = language → tag ∈ col_tags r →
     col_length r ∈ buckets
     ∧ r ∈ get_filtered_posts self (col_length r) language tag)
  ∧ (length (get_filtered_posts self (lit "Short") language tag)
     + length (get_filtered_posts self (lit "Medium") language tag)
     + length (get_filtered_posts self (lit "Long") language tag)
     = length (List.filter (language_tag_matches language tag) (df self)))%nat
  ∧ (∀ length, length ∉ buckets →
       get_filtered_posts self length language tag = []).
Proof.
  intros Hload.
  assert (Hrows : Forall (λ r, col_length r ∈ buckets) (df self)).
  { rewrite (load_posts_df _ _ Hload). apply Forall_fmap, Forall_forall.
    intros p _. apply categorize_length_bucket. }
  split; [|split].
  - intros r Hr Hlang Htag.
    split; [by apply (proj1 (Forall_forall _ _) Hrows)|].
    rewrite get_filtered_posts_filter.
    apply list_elem_of_In, filter_In. split; [by apply list_elem_of_In|].
    by apply row_matches_spec.
  - rewrite !get_filtered_posts_filter. by apply bucket_counts.
  - intros length Hlen. rewrite get_filtered_posts_filter.
    induction Hrows as [|r rows Hr _ IH]; [done|]. cbn [List.filter].
    destruct (row_matches length language tag r) eqn:Hm; [|exact IH].
    apply row_matches_spec in Hm as (<- & _). done.
Qed.

(** On the one-post corpus, for "English" and "Financial Planning". *)
Lemma buckets_partition_witness :
  load_posts sample_posts = Some sample_corpus
  ∧ (∀ r, r ∈ df sample_corpus → col_language r = lit "English" →
       lit "Financial Planning" ∈ col_tags r →
       col_length r ∈ buckets
       ∧ r ∈ get_filtered_posts sample_corpus (col_length r) (lit "English")
               (lit "Financial Planning"))
  ∧ (length (get_filtered_posts sample_corpus (lit "Short") (lit "English")
               (lit "Financial Planning"))
     + length (get_filtered_posts sample_corpus (lit "Medium") (lit "English")
                 (lit "Financial Planning"))
     + length (get_filtered_posts sample_corpus (lit "Long") (lit "English")
                 (lit "Financial Planning"))
     = length (List.filter
                 (language_tag_matches (lit "English") (lit "Financial Planning"))
                 (df sample_corpus)))%nat
  ∧ (∀ length, length ∉ buckets →
       get_filtered_posts sample_corpus length (lit "English")
         (lit "Financial Planning") = []).
Proof.
  split; [reflexivity|].
  exact (buckets_partition sample_posts sample_corpus (lit "English")
           (lit "Financial Planning") eq_refl).
Defined.

(** X20: for every line count the prompt has a length range, the one
    of the bucket the count falls in: "1 to 5 lines" below 5, "6 to 10
    lines" from 5 to 10, "11 to 15 lines" above 10; [get_length_str]
    returns [None] exactly for a length that is none of the buckets. *)
Theorem length_range_of_line_count (n : Z) :
  get_length_str (categorize_length n)
  = Some (if (n <? 5)%Z then lit "1 to 5 lines"
          else if (n <=? 10)%Z then lit "6 to 10 lines"
          else lit "11 to 15 lines")
  ∧ (∀ length, get_length_str length = None ↔ length ∉ buckets).
Proof.
  split; [apply get_length_str_bucket|].
  intros length. unfold get_length_str, buckets.
  repeat case_bool_decide; subst; split; try done.
  - intros Hn. destruct Hn. left.
  - intros Hn. destruct Hn. right. left.
  - intros Hn. destruct Hn. right. right. left.
  - intros _ [?|[?|[?|?%not_elem_of_nil]%elem_of_cons]%elem_of_cons]%elem_of_cons;
      done.
Qed.

End corpus_facts.

(** ** Language detection and generation *)

Section language_facts.
Import few_shots post_generator pre_processing.

Lemma ascii_lower_upper (c : N) : ascii_lower (ascii_upper c) = ascii_lower c.
Proof.
  unfold ascii_lower, ascii_upper, in_range.
  destruct (N.leb_spec 97 c); destruct (N.leb_spec c 122); cbn [andb];
    try done.
  destruct (N.leb_spec 65 (c - 32)); destruct (N.leb_spec (c - 32) 90);
    destruct (N.leb_spec 65 c); destruct (N.leb_spec c 90); cbn [andb]; lia.
Qed.

Lemma ascii_lower_idemp (c : N) : ascii_lower (ascii_lower c) = ascii_lower c.
Proof.
  unfold ascii_lower, in_range.
  destruct (N.leb_spec 65 c); destruct (N.leb_spec c 90); cbn [andb];
    repeat match goal with
    | |- context [?a <=? ?b] => destruct (N.leb_spec a b)
    end; cbn [andb]; try done; lia.
Qed.

Lemma is_ascii_map_upper (x : str) :
  is_ascii x = true → is_ascii (map ascii_upper x) = true.
Proof.
  rewrite !is_ascii_Forall. intros Hx. apply Forall_fmap.
  eapply Forall_impl; [exact Hx|]. intros c Hc.
  unfold compose, ascii_upper, in_range. cbv beta in Hc.
  destruct (N.leb_spec 97 c); destruct (N.leb_spec c 122); cbn [andb]; lia.
Qed.

(** X21: on ASCII text [detect_language] ignores letter case: the text
    in upper case and the text in lower case get the language of the
    text itself. *)
Theorem detect_language_ignores_case `{PyRuntime} (text : str) :
  is_ascii text = true →
  detect_language (map ascii_upper text) = detect_language text
  ∧ detect_language (map ascii_lower text) = detect_language text.
Proof.
  intros Ha. unfold detect_language.
  rewrite (lower_ascii (map ascii_upper text)) by by apply is_ascii_map_upper.
  rewrite (lower_ascii (map ascii_lower text)) by by apply is_ascii_map_lower.
  rewrite (lower_ascii text) by done.
  assert (Hu : map ascii_lower (map ascii_upper text) = map ascii_lower text).
  { rewrite map_map. apply map_ext. intros c. apply ascii_lower_upper. }
  assert (Hl : map ascii_lower (map ascii_lower text) = map ascii_lower text).
  { rewrite map_map. apply map_ext. intros c. apply ascii_lower_idemp. }
  by rewrite Hu, Hl.
Qed.

(** On "YEH mera Plan HAI". *)
Lemma detect_language_ignores_case_witness :
  is_ascii (lit "YEH mera Plan HAI") = true
  ∧ @detect_language ascii_runtime (map ascii_upper (lit "YEH mera Plan HAI"))
    = @detect_language ascii_runtime (lit "YEH mera Plan HAI")
  ∧ @detect_language ascii_runtime (map ascii_lower (lit "YEH mera Plan HAI"))
    = @detect_language ascii_runtime (lit "YEH mera Plan HAI").
Proof.
  split; [reflexivity|].
  exact (@detect_language_ignores_case ascii_runtime (lit "YEH mera Plan HAI")
           eq_refl).
Defined.

(** X22: [generate_post] sends the prompt of [get_prompt] with the
    default tone and persona; when the service replies it returns the
    reply with no white space at either end, and when the service call
    raises nothing is returned. *)
Theorem generate_post_spec `{PyRuntime} (few_shot : FewShotPosts)
    (llm : list N → option (list N)) (length language tag : list N) :
  let prompt :=
    get_prompt few_shot length language tag (lit "storytelling")
      (lit "Hamza Bhatti") in
  match generate_post few_shot llm length language tag with
  | Some out =>
      (∃ content, llm prompt = Some content ∧ out = Py.strip content)
      ∧ Py.strip out = out
      ∧ (∀ c, head out = Some c → isspace c = false)
      ∧ (∀ c, last out = Some c → isspace c = false)
  | None => llm prompt = None
  end.
Proof.
  intros prompt. subst prompt.
  unfold generate_post, default_tone, default_persona.
  destruct (llm _) as [content|]; [|done].
  destruct (strip_by_trimmed isspace content) as [Hh Hl].
  split; [eauto|]. split; [apply strip_by_idemp|]. by split.
Qed.

End language_facts.

(** ** Which texts survive cleaning *)

Section blank_facts.
Import pre_processing.

Lemma lstrip_by_all (sp : N → bool) (x : str) :
  Forall (λ c, sp c = true) x → Py.lstrip_by sp x = [].
Proof. induction 1 as [|c x Hc _ IH]; simpl; [done|]. by rewrite Hc. Qed.

Lemma strip_by_all (sp : N → bool) (x : str) :
  Forall (λ c, sp c = true) x → Py.strip_by sp x = [].
Proof. intros Hx. unfold Py.strip_by. by rewrite lstrip_by_all. Qed.

Lemma lstrip_by_keeps (sp : N → bool) (x : str) c :
  c ∈ x → sp c = false → c ∈ Py.lstrip_by sp x.
Proof.
  intros Hc Hsp. induction x as [|d x IH]; [done|]. simpl.
  destruct (sp d) eqn:Hd; [|done].
  apply elem_of_cons in Hc as [->|Hc]; [congruence|by apply IH].
Qed.

Lemma strip_by_keeps (sp : N → bool) (x : str) c :
  c ∈ x → sp c = false → c ∈ Py.strip_by sp x.
Proof.
  intros Hc Hsp. unfold Py.strip_by, Py.rstrip_by.
  apply list_elem_of_In, in_rev, list_elem_of_In. rewrite rev_involutive.
  apply lstrip_by_keeps; [|done].
  apply list_elem_of_In, in_rev. rewrite rev_involutive.
  apply list_elem_of_In. by apply lstrip_by_keeps.
Qed.

Lemma split_elem_line (x : str) c :
  c ∈ x → c ≠ nl → ∃ l, l ∈ Py.split nl x ∧ c ∈ l.
Proof.
  intros Hc Hn. induction x as [|d x IH]; [by apply not_elem_of_nil in Hc|].
  destruct (N.eq_dec d nl) as [->|Hd].
  - apply elem_of_cons in Hc as [->|Hc]; [done|].
    destruct (IH Hc) as (l & Hl & Hcl). exists l. rewrite split_cons_nl.
    split; [by right|done].
  - rewrite split_cons_ne by done.
    pose proof (split_nonempty x) as Hne.
    apply elem_of_cons in Hc as [->|Hc].
    + eexists. split; [left|left].
    + destruct (IH Hc) as (l & Hl & Hcl).
      destruct (Py.split nl x) as [|l0 ls]; [done|]. cbn [hd tl].
      apply elem_of_cons in Hl as [->|Hl].
      * eexists. split; [left|by right].
      * exists l. split; [by right|done].
Qed.

Lemma split_line_elem (x l : str) c : l ∈ Py.split nl x → c ∈ l → c ∈ x.
Proof.
  revert l. induction x as [|d x IH]; intros l.
  - simpl. intros ->%list_elem_of_singleton Hc. done.
  - destruct (N.eq_dec d nl) as [->|Hd].
    + rewrite split_cons_nl. intros [->|Hl]%elem_of_cons Hc.
      * by apply not_elem_of_nil in Hc.
      * right. by eapply IH.
    + rewrite split_cons_ne by done.
      pose proof (split_nonempty x) as Hne.
      destruct (Py.split nl x) as [|l0 ls]; [done|]. cbn [hd tl].
      intros [->|Hl]%elem_of_cons Hc.
      * apply elem_of_cons in Hc as [->|Hc]; [left|right].
        eapply IH; [left|done].
      * right. eapply IH; [by right|done].
Qed.

Lemma join_elem (lines : list (list N)) l c :
  l ∈ lines → c ∈ l → c ∈ Py.join [nl] lines.
Proof.
  intros Hl Hc. induction lines as [|l0 [|l1 ls] IH].
  - by apply not_elem_of_nil in Hl.
  - by apply list_elem_of_singleton in Hl as ->.
  - change (Py.join [nl] (l0 :: l1 :: ls))
      with (l0 ++ [nl] ++ Py.join [nl] (l1 :: ls)).
    apply elem_of_cons in Hl as [->|Hl].
    + by apply elem_of_app; left.
    + apply elem_of_app; right. apply elem_of_app; right. by apply IH.
Qed.

Lemma join_elem_inv (lines : list (list N)) c :
  c ∈ Py.join [nl] lines → c = nl ∨ ∃ l, l ∈ lines ∧ c ∈ l.
Proof.
  induction lines as [|l0 [|l1 ls] IH].
  - intros Hc. by apply not_elem_of_nil in Hc.
  - intros Hc. right. exists l0. split; [left|done].
  - change (Py.join [nl] (l0 :: l1 :: ls))
      with (l0 ++ [nl] ++ Py.join [nl] (l1 :: ls)).
    intros [Hc|[Hc|Hc]%elem_of_app]%elem_of_app.
    + right. exists l0. split; [left|done].
    + left. by apply list_elem_of_singleton in Hc.
    + destruct (IH Hc) as [->|(l & Hl & Hcl)]; [by left|].
      right. exists l. split; [by right|done].
Qed.

Lemma squeeze_keeps (x : str) c : c ∈ x → c ≠ nl → c ∈ squeeze x.
Proof.
  intros Hc Hn. induction x as [|d x IH]; [done|].
  rewrite squeeze_cons. apply elem_of_cons in Hc as [->|Hc].
  - rewrite starts3_false_ne by done. left.
  - destruct (starts3 (d :: x)); [by apply IH|right; by apply IH].
Qed.

Lemma squeeze_elem (x : str) c : c ∈ squeeze x → c ∈ x.
Proof.
  induction x as [|d x IH]; [done|]. rewrite squeeze_cons.
  destruct (starts3 (d :: x)).
  - intros Hc. right. by apply IH.
  - intros [->|Hc]%elem_of_cons; [left|right; by apply IH].
Qed.

(** X23: [clean_text] returns the empty string exactly on a text made
    of white space only (the empty text included); every other character
    of a text is still in the cleaned text. *)
Theorem clean_text_blank `{PyRuntime} (x : str) :
  (clean_text x = [] ↔ Forall (λ c, isspace c = true) x)
  ∧ (∀ c, c ∈ x → isspace c = false → c ∈ clean_text x).
Proof.
  assert (Hkeep : ∀ c, c ∈ x → isspace c = false → c ∈ clean_text x).
  { intros c Hc Hsp.
    assert (Hn : c ≠ nl) by (intros ->; rewrite isspace_nl in Hsp; done).
    unfold clean_text. case_bool_decide as Hx; [by subst|].
    rewrite re_sub_newlines_squeeze.
    apply strip_by_keeps; [|done]. apply squeeze_keeps; [|done].
    destruct (split_elem_line x c Hc Hn) as (l & Hl & Hcl).
    apply (join_elem _ (Py.strip l)).
    - by apply list_elem_of_fmap_2.
    - by apply strip_by_keeps. }
  split; [|exact Hkeep]. split.
  - intros Hempty. apply Forall_forall. intros c Hc.
    destruct (isspace c) eqn:Hsp; [done|].
    specialize (Hkeep c Hc Hsp). rewrite Hempty in Hkeep.
    by apply not_elem_of_nil in Hkeep.
  - intros Hall. unfold clean_text. case_bool_decide as Hx; [done|].
    rewrite re_sub_newlines_squeeze. apply strip_by_all, Forall_forall.
    intros c Hc%squeeze_elem%join_elem_inv.
    destruct Hc as [->|(l & Hl & Hcl)]; [apply isspace_nl|].
    apply list_elem_of_fmap in Hl as (l' & -> & Hl'). unfold Py.strip in Hcl.
    rewrite (strip_by_all isspace l') in Hcl; [by apply not_elem_of_nil in Hcl|].
    apply Forall_forall. intros d Hd.
    apply (proj1 (Forall_forall _ _) Hall). by eapply split_line_elem.
Qed.

End blank_facts.

(** ** Replies that differ in case or padding *)

Section padding_facts.
Import pre_processing.

Lemma ascii_upper_idemp (c : N) : ascii_upper (ascii_upper c) = ascii_upper c.
Proof.
  unfold ascii_upper, in_range.
  destruct (N.leb_spec 97 c); destruct (N.leb_spec c 122); cbn [andb];
    repeat match goal with
    | |- context [?a <=? ?b] => destruct (N.leb_spec a b)
    end; cbn [andb]; try done; lia.
Qed.

Lemma ascii_upper_lower (c : N) : ascii_upper (ascii_lower c) = ascii_upper c.
Proof.
  unfold ascii_upper, ascii_lower, in_range.
  destruct (N.leb_spec 65 c); destruct (N.leb_spec c 90); cbn [andb];
    repeat match goal with
    | |- context [?a <=? ?b] => destruct (N.leb_spec a b)
    end; cbn [andb]; try done; lia.
Qed.

Lemma ascii_isalpha_upper (c : N) : ascii_isalpha (ascii_upper c) = ascii_isalpha c.
Proof.
  unfold ascii_isalpha, ascii_upper, in_range.
  destruct (N.leb_spec 97 c); destruct (N.leb_spec c 122); cbn [andb orb];
    repeat match goal with
    | |- context [?a <=? ?b] => destruct (N.leb_spec a b)
    end; cbn [andb orb]; try done; lia.
Qed.

Lemma ascii_isalpha_lower (c : N) : ascii_isalpha (ascii_lower c) = ascii_isalpha c.
Proof.
  unfold ascii_isalpha, ascii_lower, in_range.
  destruct (N.leb_spec 65 c); destruct (N.leb_spec c 90); cbn [andb orb];
    repeat match goal with
    | |- context [?a <=? ?b] => destruct (N.leb_spec a b)
    end; cbn [andb orb]; try done; lia.
Qed.

Lemma isspace_printable (c : N) :
  33 ≤ c → c < 128 → unicode_isspace c = false.
Proof.
  intros Hlo Hhi.
  change (unicode_isspace c) with (@isspace ascii_runtime c).
  rewrite (@isspace_ascii ascii_runtime c Hhi).
  unfold ascii_isspace, in_range.
  replace (c <=? 13) with false by (symmetry; apply N.leb_gt; lia).
  replace (c <=? 32) with false by (symmetry; apply N.leb_gt; lia).
  by rewrite !andb_false_r.
Qed.

Lemma unicode_isspace_upper (c : N) :
  unicode_isspace (ascii_upper c) = unicode_isspace c.
Proof.
  unfold ascii_upper, in_range.
  destruct (N.leb_spec 97 c); destruct (N.leb_spec c 122); cbn [andb];
    try done.
  by rewrite !isspace_printable by lia.
Qed.

Lemma unicode_isspace_lower (c : N) :
  unicode_isspace (ascii_lower c) = unicode_isspace c.
Proof.
  unfold ascii_lower, in_range.
  destruct (N.leb_spec 65 c); destruct (N.leb_spec c 90); cbn [andb];
    try done.
  by rewrite !isspace_printable by lia.
Qed.

Lemma lstrip_by_map (sp : N → bool) (f : N → N) (x : str) :
  (∀ c, sp (f c) = sp c) →
  Py.lstrip_by sp (map f x) = map f (Py.lstrip_by sp x).
Proof.
  intros Hf. induction x as [|c x IH]; [done|]. simpl. rewrite Hf.
  by destruct (sp c).
Qed.

Lemma strip_by_map (sp : N → bool) (f : N → N) (x : str) :
  (∀ c, sp (f c) = sp c) →
  Py.strip_by sp (map f x) = map f (Py.strip_by sp x).
Proof.
  intros Hf. unfold Py.strip_by, Py.rstrip_by.
  rewrite lstrip_by_map by done.
  rewrite <- map_rev, lstrip_by_map by done. by rewrite map_rev.
Qed.

Lemma ascii_title_from_map (f : N → N) (b : bool) (x : str) :
  (∀ c, ascii_lower (f c) = ascii_lower c) →
  (∀ c, ascii_upper (f c) = ascii_upper c) →
  (∀ c, ascii_isalpha (f c) = ascii_isalpha c) →
  ascii_title_from b (map f x) = ascii_title_from b x.
Proof.
  intros Hl Hu Ha. revert b. induction x as [|c x IH]; intros b; [done|].
  simpl. by rewrite Hl, Hu, Ha, IH.
Qed.

Lemma normal_form_upper (x : str) :
  @normal_form ascii_runtime (map ascii_upper x) = @normal_form ascii_runtime x.
Proof.
  unfold normal_form, Py.strip. cbn [title isspace ascii_runtime].
  rewrite strip_by_map by apply unicode_isspace_upper.
  apply ascii_title_from_map.
  - apply ascii_lower_upper.
  - apply ascii_upper_idemp.
  - apply ascii_isalpha_upper.
Qed.

Lemma normal_form_lower (x : str) :
  @normal_form ascii_runtime (map ascii_lower x) = @normal_form ascii_runtime x.
Proof.
  unfold normal_form, Py.strip. cbn [title isspace ascii_runtime].
  rewrite strip_by_map by apply unicode_isspace_lower.
  apply ascii_title_from_map.
  - apply ascii_lower_idemp.
  - apply ascii_upper_lower.
  - apply ascii_isalpha_lower.
Qed.

Lemma normalize_by_normal_form `{PyRuntime} self x y :
  normal_form x = normal_form y →
  normalize_and_merge_tags self x = normalize_and_merge_tags self y.
Proof.
  intros Hxy. unfold normalize_and_merge_tags.
  fold (normal_form x). fold (normal_form y). by rewrite Hxy.
Qed.

(** X24: [normalize_and_merge_tags] does the same on any reply and on
    the reply stripped of surrounding white space; on an ASCII reply it
    does the same whatever the case of its letters. *)
Theorem normalize_ignores_case_and_padding `{PyRuntime}
    (self : LinkedInPostCleaner) (new_tag : str) :
  normalize_and_merge_tags self (Py.strip new_tag)
  = normalize_and_merge_tags self new_tag
  ∧ (is_ascii new_tag = true →
     normalize_and_merge_tags self (map ascii_upper new_tag)
     = normalize_and_merge_tags self new_tag
     ∧ normalize_and_merge_tags self (map ascii_lower new_tag)
       = normalize_and_merge_tags self new_tag).
Proof.
  split; [|intros Ha; split]; apply normalize_by_normal_form.
  - unfold normal_form, Py.strip. by rewrite strip_by_idemp.
  - destruct (normal_form_ascii new_tag Ha) as [-> _].
    destruct (normal_form_ascii _ (is_ascii_map_upper _ Ha)) as [-> _].
    apply normal_form_upper.
  - destruct (normal_form_ascii new_tag Ha) as [-> _].
    destruct (normal_form_ascii _ (is_ascii_map_lower _ Ha)) as [-> _].
    apply normal_form_lower.
Qed.

(** On the reply " buDGet ". *)
Lemma normalize_ignores_case_and_padding_witness :
  is_ascii (lit " buDGet ") = true
  ∧ @normalize_and_merge_tags ascii_runtime init
      (@Py.strip ascii_runtime (lit " buDGet "))
    = @normalize_and_merge_tags ascii_runtime init (lit " buDGet ")
  ∧ @normalize_and_merge_tags ascii_runtime init (map ascii_upper (lit " buDGet "))
    = @normalize_and_merge_tags ascii_runtime init (lit " buDGet ")
  ∧ @normalize_and_merge_tags ascii_runtime init (map ascii_lower (lit " buDGet "))
    = @normalize_and_merge_tags ascii_runtime init (lit " buDGet ").
Proof.
  split; [reflexivity|].
  exact (conj
           (proj1 (@normalize_ignores_case_and_padding ascii_runtime init
                     (lit " buDGet ")))
           (proj2 (@normalize_ignores_case_and_padding ascii_runtime init
                     (lit " buDGet ")) eq_refl)).
Defined.

End padding_facts.
